(** * skbio.io._registry: the format registry and the generic read/write dispatch

    A shallow embedding of [src/skbio/io/_registry.py].  The two module-level
    dictionaries [_formats] and [_identifiers] are the fields of a [Registry]
    record that every registration threads through; the file object a call
    works on and the operations the dispatch layer performs on it (open, seek,
    close, calls of registered functions) are the [World] that [guess_format],
    [read] and [write] thread through. *)

From stdpp Require Import gmap strings list fin_maps.

Open Scope string_scope.

(** ** Python values the module handles *)

(** A class object used as the [cls] key; [dunder_name] is its [__name__]. *)
Record Cls := Class { dunder_name : string }.

#[global] Instance Cls_eq_dec : EqDecision Cls.
Proof. solve_decision. Defined.

#[global] Instance Cls_countable : Countable Cls.
Proof. exact (inj_countable' dunder_name Class (fun c => match c with Class _ => eq_refl end)). Defined.

(** An open file object: what it holds, the read offset, and whether
    [close()] has been called on it. *)
Record Stream := mkStream { contents : string; position : nat; closed : bool }.

(** Modelled from the spec: the file object's [seek] and [close] (the stream
    is an external collaborator; "reset the stream's read position",
    "release the stream"). *)
Definition seek (offset : nat) (fh : Stream) : Stream :=
  {| contents := contents fh; position := offset; closed := closed fh |}.

Definition close (fh : Stream) : Stream :=
  {| contents := contents fh; position := position fh; closed := true |}.

(** Exceptions.  The message is kept as the template and the tuple that the
    source puts after [%]. *)
Inductive ExcClass :=
| TypeError
| ValueError
| AttributeError
| DuplicateRegistrationError
| FormatIdentificationError
| FileFormatError
| StopIteration
| RuntimeError
| OtherError (tag : nat).

Inductive FmtArg :=
| Str (s : string)
| Int (n : nat)
| StrOfList (l : list string)
| StrOfFile (fh : Stream).

Record Exc := Exception
  { exc_class : ExcClass; exc_template : string; exc_args : list FmtArg }.

Inductive Outcome (A : Type) :=
| Returns (a : A)
| Raises (e : Exc).
Arguments Returns {A} a.
Arguments Raises {A} e.

(** [x in d] and the attribute access [cls.__name__]; [None] has no
    [__name__]. *)
Definition py_in {K V} `{Countable K} (k : K) (d : gmap K V) : bool :=
  match d !! k with Some _ => true | None => false end.

Definition getattr_name (cls : option Cls) : Outcome string :=
  match cls with
  | Some c => Returns (dunder_name c)
  | None =>
      Raises (Exception AttributeError
                "'NoneType' object has no attribute '__name__'" [])
  end.

(** ** The registry store and the registration API *)

Section Registry.

(** The registered functions are opaque to the store. *)
Variables Ident Func : Type.

Record Registry := mkRegistry
  { _formats : gmap string (gmap (option Cls) (gmap string Func));
    _identifiers : gmap string Ident }.

Definition empty_registry : Registry :=
  {| _formats := ∅; _identifiers := ∅ |}.

(** [register_identifier(fmt)(identifier)] *)
Definition register_identifier (fmt : string) (identifier : Ident)
           (R : Registry) : Registry * Outcome Ident :=
  if py_in fmt (_identifiers R) then
    (R, Raises (Exception DuplicateRegistrationError
                          "'%s' already has an identifier." [Str fmt]))
  else
    ({| _formats := _formats R;
        _identifiers := <[fmt := identifier]> (_identifiers R) |},
     Returns identifier).

(** The [decorator] closure of [_rw_decorator], with [name], [fmt] and
    [cls] the variables it closes over.  [format_dict] and [format_class]
    alias entries of [_formats], so every assignment is an update of
    [_formats] itself. *)
Definition rw_decorator (name fmt : string) (cls : option Cls) (func : Func)
           (R : Registry) : Registry * Outcome Func :=
  let formats1 :=
    if py_in fmt (_formats R) then _formats R
    else <[fmt := ∅]> (_formats R) in
  let format_dict := default ∅ (formats1 !! fmt) in
  let formats2 :=
    if py_in cls format_dict then formats1
    else <[fmt := <[cls := ∅]> format_dict]> formats1 in
  let format_dict' := default ∅ (formats2 !! fmt) in
  let format_class := default ∅ (format_dict' !! cls) in
  if negb (py_in name format_class) then
    ({| _formats :=
          <[fmt := <[cls := <[name := func]> format_class]> format_dict']>
            formats2;
        _identifiers := _identifiers R |},
     Returns func)
  else
    let R' := {| _formats := formats2; _identifiers := _identifiers R |} in
    match getattr_name cls with
    | Raises e => (R', Raises e)
    | Returns cls_name =>
        (R', Raises (Exception DuplicateRegistrationError
                               "'%s' already has a %s for %s."
                               [Str fmt; Str name; Str cls_name]))
    end.

(** [_rw_decorator(name, fmt, *args)]: the arity check, then the closure. *)
Definition _rw_decorator (name fmt : string) (args : list (option Cls))
  : Outcome (Func -> Registry -> Registry * Outcome Func) :=
  let arg_len := length args in
  if Nat.ltb 1 arg_len then
    Raises (Exception TypeError
                      "register_%s takes 1 or 2 arguments (%d given)"
                      [Str name; Int arg_len])
  else
    let cls := match args with [c] => c | _ => None end in
    Returns (rw_decorator name fmt cls).

Definition register_reader (fmt : string) (cls : list (option Cls)) :=
  _rw_decorator "reader" fmt cls.

Definition register_writer (fmt : string) (cls : list (option Cls)) :=
  _rw_decorator "writer" fmt cls.

(** Applying the result of a decorator factory to [func]; when the factory
    itself raised there is no decorator and the registry is untouched. *)
Definition decorate (factory : Outcome (Func -> Registry -> Registry * Outcome Func))
           (func : Func) (R : Registry) : Registry * Outcome Func :=
  match factory with
  | Returns decorator => decorator func R
  | Raises e => (R, Raises e)
  end.

(** ** The lookup API *)

Definition get_identifier (fmt : string) (R : Registry) : option Ident :=
  if py_in fmt (_identifiers R) then _identifiers R !! fmt else None.

Definition _rw_getter (name fmt : string) (args : list (option Cls))
           (R : Registry) : Outcome (option Func) :=
  let arg_len := length args in
  if Nat.ltb 1 arg_len then
    Raises (Exception TypeError
                      "get_%s takes 1 or 2 arguments (%d given)"
                      [Str name; Int arg_len])
  else
    let cls := match args with [c] => c | _ => None end in
    match _formats R !! fmt with
    | Some format_dict =>
        match format_dict !! cls with
        | Some format_class =>
            match format_class !! name with
            | Some func => Returns (Some func)
            | None => Returns None
            end
        | None => Returns None
        end
    | None => Returns None
    end.

Definition get_reader (fmt : string) (cls : list (option Cls)) :=
  _rw_getter "reader" fmt cls.

Definition get_writer (fmt : string) (cls : list (option Cls)) :=
  _rw_getter "writer" fmt cls.

Definition _rw_list_formats (name : string) (cls : option Cls)
           (R : Registry) : list string :=
  List.filter
    (fun fmt =>
       match _formats R !! fmt with
       | Some format_dict =>
           match format_dict !! cls with
           | Some format_class => py_in name format_class
           | None => false
           end
       | None => false
       end)
    (map_to_list (_formats R)).*1.

Definition list_read_formats := _rw_list_formats "reader".
Definition list_write_formats := _rw_list_formats "writer".

(** The test [fmt not in _formats or cls not in _formats[fmt]] of
    [guess_format], and the whole condition of its [continue]:
    [cls is not None and (...)]. *)
Definition not_registered_for (R : Registry) (fmt : string)
           (cls : option Cls) : bool :=
  negb (py_in fmt (_formats R))
  || negb (py_in cls (default ∅ (_formats R !! fmt))).

Definition skipped (R : Registry) (cls : option Cls) (fmt : string) : bool :=
  (match cls with Some _ => true | None => false end)
  && not_registered_for R fmt cls.

(** The role mapping [_formats[fmt][cls]], empty when the slot is not
    there. *)
Definition slot_of (R : Registry) (fmt : string) (cls : option Cls)
  : gmap string Func :=
  default ∅ (default ∅ (_formats R !! fmt) !! cls).

(** ** Registry states and what holds of them *)

(** The registries the module can be in: the empty dictionaries it starts
    with, then the state any registration call leaves, whether the call
    returned or raised.  Lookups, [guess_format], [read] and [write] only
    consult the dictionaries. *)
Inductive reachable : Registry -> Prop :=
| reach_empty : reachable empty_registry
| reach_identifier R fmt identifier :
    reachable R -> reachable (register_identifier fmt identifier R).1
| reach_reader R fmt cls func :
    reachable R -> reachable (decorate (register_reader fmt cls) func R).1
| reach_writer R fmt cls func :
    reachable R -> reachable (decorate (register_writer fmt cls) func R).1.

(** The role mapping of a (format, owner type) slot binds a reader or a
    writer. *)
Definition binds_a_role (format_class : gmap string Func) : Prop :=
  is_Some (format_class !! "reader") \/ is_Some (format_class !! "writer").

Definition slots_nonempty (R : Registry) : Prop :=
  forall fmt format_dict cls format_class,
    _formats R !! fmt = Some format_dict ->
    format_dict !! cls = Some format_class ->
    format_class <> ∅ /\ binds_a_role format_class.

(** Some reader or writer is bound to the pair, as the getters see it. *)
Definition has_reader_or_writer (R : Registry) (fmt : string)
           (cls : option Cls) : bool :=
  match get_reader fmt [cls] R, get_writer fmt [cls] R with
  | Returns (Some _), _ => true
  | _, Returns (Some _) => true
  | _, _ => false
  end.

(** The identifiers [guess_format] is to try, in the words of its
    docstring: all of them when no [cls] is given, else those of the
    formats with a reader or a writer registered for [cls]. *)
Definition applicable (R : Registry) (cls : option Cls) (fmt : string)
  : bool :=
  match cls with
  | None => true
  | Some _ => has_reader_or_writer R fmt cls
  end.

End Registry.

Arguments mkRegistry {Ident Func} _ _.
Arguments _formats {Ident Func} _.
Arguments _identifiers {Ident Func} _.
Arguments empty_registry {Ident Func}.
Arguments register_identifier {Ident Func} fmt identifier R.
Arguments rw_decorator {Ident Func} name fmt cls func R.
Arguments _rw_decorator {Ident Func} name fmt args.
Arguments register_reader {Ident Func} fmt cls.
Arguments register_writer {Ident Func} fmt cls.
Arguments decorate {Ident Func} factory func R.
Arguments get_identifier {Ident Func} fmt R.
Arguments _rw_getter {Ident Func} name fmt args R.
Arguments get_reader {Ident Func} fmt cls R.
Arguments get_writer {Ident Func} fmt cls R.
Arguments _rw_list_formats {Ident Func} name cls R.
Arguments list_read_formats {Ident Func} cls R.
Arguments list_write_formats {Ident Func} cls R.
Arguments not_registered_for {Ident Func} R fmt cls.
Arguments reachable {Ident Func} _.
Arguments binds_a_role {Func} format_class.
Arguments slots_nonempty {Ident Func} R.
Arguments has_reader_or_writer {Ident Func} R fmt cls.
Arguments skipped {Ident Func} R cls fmt.
Arguments slot_of {Ident Func} R fmt cls.
Arguments applicable {Ident Func} R cls fmt.

(** ** The file object of a call and what the dispatch layer does to it *)

(** What the module does to the file object, in order.  Registered functions
    receive the [Stream] only, so the log records the dispatch layer's own
    operations and nothing a registered function could forge. *)
Inductive Event :=
| EOpen (path mode : string)
| ESeek (offset : nat)
| EClose
| EIdentify (fmt : string) (seen : Stream) (verdict : bool)
| ECallReader (seen : Stream)
| ECallWriter (seen : Stream)
| ENext (seen : Stream).

Record World := mkWorld { fh : Stream; log : list Event }.

(** Code that works on the file object and may raise. *)
Definition M (A : Type) : Type := World -> World * Outcome A.

Definition ret {A} (a : A) : M A := fun w => (w, Returns a).

Definition bind {A B} (m : M A) (k : A -> M B) : M B := fun w =>
  match m w with
  | (w', Returns a) => k a w'
  | (w', Raises e) => (w', Raises e)
  end.

Notation "'do' x <- m ; k" := (bind m (fun x => k))
  (at level 10, x name, m at level 100, k at level 200).
Notation "'run' m ; k" := (bind m (fun _ => k))
  (at level 10, m at level 100, k at level 200).

Definition raise {A} (e : Exc) : M A := fun w => (w, Raises e).

(** [try: body finally: cleanup] *)
Definition try_finally {A} (body : M A) (cleanup : M unit) : M A := fun w =>
  match body w with
  | (w', r) =>
      match cleanup w' with
      | (w'', Returns _) => (w'', r)
      | (w'', Raises e) => (w'', Raises e)
      end
  end.

Definition fh_seek (offset : nat) : M unit := fun w =>
  ({| fh := seek offset (fh w); log := log w ++ [ESeek offset] |}, Returns tt).

Definition fh_close : M unit := fun w =>
  ({| fh := close (fh w); log := log w ++ [EClose] |}, Returns tt).

(** [str(fh)] as a message argument. *)
Definition str_fh : M FmtArg := fun w => (w, Returns (StrOfFile (fh w))).

(** Reading the log. *)
Definition is_close (ev : Event) : bool :=
  match ev with EClose => true | _ => false end.

Definition is_reader_call (ev : Event) : bool :=
  match ev with ECallReader _ => true | _ => false end.

Definition count_events (p : Event -> bool) (l : list Event) : nat :=
  length (List.filter p l).

(** The formats whose identifier was called, in order, and those among them
    whose identifier said True. *)
Definition identified (l : list Event) : list string :=
  flat_map (fun ev => match ev with EIdentify fmt _ _ => [fmt] | _ => [] end) l.

Definition positives (l : list Event) : list string :=
  flat_map (fun ev => match ev with EIdentify fmt _ true => [fmt] | _ => [] end) l.

(** Every identifier call in the log found the file object at offset 0. *)
Definition identified_from_start (l : list Event) : Prop :=
  Forall (fun ev => match ev with
                    | EIdentify _ seen _ => position seen = 0
                    | _ => True
                    end) l.

(** The trials as the log shows them: each identifier call is followed at
    once by [fh.seek(0)], and nothing else happens in between. *)
Fixpoint reset_after_each (l : list Event) : Prop :=
  match l with
  | [] => True
  | EIdentify _ _ _ :: ESeek 0 :: rest => reset_after_each rest
  | _ => False
  end.

(** A path or an already open file object. *)
Inductive FileArg :=
| Path (p : string)
| FileObj (f : Stream).

(** Modelled from the spec: [_get_filehandle] of [skbio.io.util], which is
    not in this module: "given either a path or an already-open stream plus a
    mode string, yields (stream, owned: boolean)".  [disk] gives what a path
    holds; a path is opened at offset 0. *)
Definition _get_filehandle (disk : string -> string) (fp : FileArg)
           (mode : string) : World * bool :=
  match fp with
  | Path p =>
      ({| fh := {| contents := disk p; position := 0; closed := false |};
          log := [EOpen p mode] |}, true)
  | FileObj f => ({| fh := f; log := [] |}, false)
  end.

(** Modelled from the spec: [open_file] of [skbio.io.util], which is not in
    this module, as the context manager of [with open_file(fp, mode) as fh:]
    once [_get_filehandle] gave the handle: it "supports scoped acquisition
    that guarantees closing on every exit path" for a path, and leaves a
    borrowed file object open. *)
Definition open_file {A} (own_fh : bool) (body : M A) : M A :=
  try_finally body (if own_fh then fh_close else ret tt).

Section Dispatch.

(** The state of an iterator object returned by a streaming reader, and
    Python's [next] on it: the iterator moves on and either hands out an
    element or raises ([StopIteration] when it is done). *)
Variable GenState : Type.

Inductive PyObj :=
| PyNone
| Instance (cls : Cls) (state : list nat)
| GeneratorObj (g : GenState).

Variable gen_next : GenState -> Stream -> Stream * (GenState * Outcome PyObj).

Variable disk : string -> string.

(** Whether the interpreter replaces a [StopIteration] that leaves the body
    of a generator by [RuntimeError] (PEP 479): it does not before Python
    3.5 (Python 2.7 among them), and always does from Python 3.7 on. *)
Variable generator_stop : bool.

Definition is_stop_iteration (e : Exc) : bool :=
  match exc_class e with StopIteration => true | _ => false end.

(** An exception as it leaves the body of [wrapper_generator]. *)
Definition leaving_generator (e : Exc) : Exc :=
  if is_stop_iteration e && generator_stop then
    Exception RuntimeError "generator raised StopIteration" []
  else e.

(** [obj.__class__] *)
Definition dunder_class (obj : PyObj) : Cls :=
  match obj with
  | PyNone => Class "NoneType"
  | Instance cls _ => cls
  | GeneratorObj _ => Class "generator"
  end.

(** An identifier is called as [test(fh)].  By the interface that
    [register_identifier] documents it answers True or False; it may leave
    the file object at any offset. *)
Definition Identifier : Type := Stream -> Stream * bool.

(** A reader is called as [reader(fh, *args, **kwargs)], a writer as
    [writer(obj, fh, *args, **kwargs)]: a callable gets the file object,
    the other positional arguments and the keyword arguments, and returns
    or raises. *)
Definition Callable : Type :=
  Stream -> list PyObj -> list (string * PyObj) -> Stream * Outcome PyObj.

Definition call_identifier (fmt : string) (test : Identifier) : M bool :=
  fun w =>
    let '(f', verdict) := test (fh w) in
    ({| fh := f'; log := log w ++ [EIdentify fmt (fh w) verdict] |},
     Returns verdict).

Definition call_reader (reader : Callable) (args : list PyObj)
           (kwargs : list (string * PyObj)) : M PyObj :=
  fun w =>
    let '(f', r) := reader (fh w) args kwargs in
    ({| fh := f'; log := log w ++ [ECallReader (fh w)] |}, r).

Definition call_writer (writer : Callable) (obj : PyObj) (args : list PyObj)
           (kwargs : list (string * PyObj)) : M PyObj :=
  fun w =>
    let '(f', r) := writer (fh w) (obj :: args) kwargs in
    ({| fh := f'; log := log w ++ [ECallWriter (fh w)] |}, r).

(** [next(original)]: the iterator's new state and what it handed out. *)
Definition py_next (original : PyObj) : World -> World * (PyObj * Outcome PyObj) :=
  fun w =>
    match original with
    | GeneratorObj g =>
        let '(f', (g', r)) := gen_next g (fh w) in
        ({| fh := f'; log := log w ++ [ENext (fh w)] |}, (GeneratorObj g', r))
    | _ =>
        ({| fh := fh w; log := log w ++ [ENext (fh w)] |},
         (original,
          Raises (Exception TypeError "'%s' object is not an iterator"
                            [Str (dunder_name (dunder_class original))])))
    end.

Definition Reg : Type := Registry Identifier Callable.

(** ** guess_format *)

(** The [for fmt in _identifiers] loop, over the items of the dictionary in
    its iteration order, which is the dictionary's own business: here that of
    [map_to_list]. *)
Fixpoint guess_loop (R : Reg) (cls : option Cls)
         (items : list (string * Identifier)) (possibles : list string)
  : M (list string) :=
  match items with
  | [] => ret possibles
  | (fmt, test) :: rest =>
      if skipped R cls fmt then guess_loop R cls rest possibles
      else
        do verdict <- call_identifier fmt test;
        let possibles' := if verdict then (possibles ++ [fmt])%list else possibles in
        run fh_seek 0;
        guess_loop R cls rest possibles'
  end.

(** The decision rule in the words of the specification: no match and more
    than one match are identification failures, the latter naming the
    matches; exactly one match is the answer.  [a] stands for [str(fh)]. *)
Definition decision_rule (a : FmtArg) (matched : list string)
  : Outcome string :=
  match matched with
  | [] => Raises (Exception FormatIdentificationError
                            "Cannot guess the format for %s." [a])
  | [fmt] => Returns fmt
  | _ => Raises (Exception FormatIdentificationError
                           "File format is ambiguous, may be one of %s."
                           [StrOfList matched])
  end.

(** The body of [guess_format] on the handle [_get_filehandle] gave. *)
Definition guess_format_fh (R : Reg) (cls : option Cls) (own_fh : bool)
  : M string :=
  open_file own_fh
    (run fh_seek 0;
     do possibles <- guess_loop R cls (map_to_list (_identifiers R)) [];
     match possibles with
     | [] =>
         do a <- str_fh;
         raise (Exception FormatIdentificationError
                          "Cannot guess the format for %s." [a])
     | first :: _ =>
         if Nat.ltb 1 (length possibles) then
           raise (Exception FormatIdentificationError
                            "File format is ambiguous, may be one of %s."
                            [StrOfList possibles])
         else ret first
     end).

Definition guess_format (R : Reg) (fp : FileArg) (cls : option Cls)
  : World * Outcome string :=
  let '(w, own_fh) := _get_filehandle disk fp "U" in
  guess_format_fh R cls own_fh w.

(** ** read *)

(** The generator object [wrapper_generator()] makes: the variables its
    body closes over and where the body stands. *)
Inductive Frame :=
| NotStarted
| Suspended (original : PyObj)
| Finished.

Record WrapperGen := mkWrapperGen
  { wg_reader : Callable;
    wg_is_own : bool;
    wg_args : list PyObj;
    wg_kwargs : list (string * PyObj);
    wg_frame : Frame }.

Definition at_frame (g : WrapperGen) (f : Frame) : WrapperGen :=
  {| wg_reader := wg_reader g; wg_is_own := wg_is_own g;
     wg_args := wg_args g; wg_kwargs := wg_kwargs g; wg_frame := f |}.

(** One turn of [try: while(True): yield next(original)
    finally: if is_own: fh.close()]: either the body stops at the [yield],
    or [next] raised and the exception leaves through the [finally] and
    then the body. *)
Definition wrapper_turn (g : WrapperGen) (original : PyObj)
  : World -> World * (WrapperGen * Outcome PyObj) :=
  fun w =>
    match py_next original w with
    | (w1, (original', Returns x)) =>
        (w1, (at_frame g (Suspended original'), Returns x))
    | (w1, (_, Raises e)) =>
        let '(w2, _) := (if wg_is_own g then fh_close else ret tt) w1 in
        (w2, (at_frame g Finished, Raises (leaving_generator e)))
    end.

(** [next(w)] on the generator [read] returned. *)
Definition wrapper_next (g : WrapperGen)
  : World -> World * (WrapperGen * Outcome PyObj) :=
  fun w =>
    match wg_frame g with
    | NotStarted =>
        match call_reader (wg_reader g) (wg_args g) (wg_kwargs g) w with
        | (w1, Returns original) => wrapper_turn g original w1
        | (w1, Raises e) =>
            (w1, (at_frame g Finished, Raises (leaving_generator e)))
        end
    | Suspended original => wrapper_turn g original w
    | Finished => (w, (g, Raises (Exception StopIteration EmptyString [])))
    end.

(** Whether the body of the generator has been entered. *)
Definition started (g : WrapperGen) : bool :=
  match wg_frame g with NotStarted => false | _ => true end.

(** Whether a request made in world [w] has the body inside its [try]
    block when [next(original)] is reached: the body is suspended at the
    [yield], or it is entered now and [reader(fh, ...)] returns. *)
Definition in_try_block (g : WrapperGen) (w : World) : bool :=
  match wg_frame g with
  | NotStarted =>
      match (wg_reader g (fh w) (wg_args g) (wg_kwargs g)).2 with
      | Returns _ => true
      | Raises _ => false
      end
  | Suspended _ => true
  | Finished => false
  end.

(** The caller asking for [n] elements one after the other, whatever each
    request gives. *)
Fixpoint pull (n : nat) (g : WrapperGen) (w : World)
  : World * WrapperGen * list (Outcome PyObj) :=
  match n with
  | 0 => (w, g, [])
  | S n' =>
      let '(w1, (g1, r)) := wrapper_next g w in
      let '(w2, g2, rs) := pull n' g1 w1 in
      (w2, g2, r :: rs)
  end.

Inductive ReadResult :=
| Object (result : PyObj)
| Generator (wrapper : WrapperGen).

(** [read] from [reader = get_reader(format, into)] on, the format name
    being settled. *)
Definition read_as (R : Reg) (format : string) (into : option Cls)
           (is_own : bool) (args : list PyObj)
           (kwargs : list (string * PyObj)) : M ReadResult :=
  do reader <- (fun w => (w, get_reader format [into] R));
  match reader with
  | None =>
      raise (Exception FileFormatError
                       "Cannot read %s into %s, no reader found."
                       [Str format;
                        Str (match into with
                             | Some c => dunder_name c
                             | None => "generator"
                             end)])
  | Some reader =>
      match into with
      | None =>
          ret (Generator (mkWrapperGen reader is_own args kwargs NotStarted))
      | Some _ =>
          do result <- call_reader reader args kwargs;
          run (if is_own then fh_close else ret tt);
          ret (Object result)
      end
  end.

(** [read] from the line after [_get_filehandle]: [guess_format(fh,
    cls=into)] gets the file object, which [open_file] then borrows. *)
Definition read_fh (R : Reg) (format : option string) (into : option Cls)
           (is_own : bool) (args : list PyObj)
           (kwargs : list (string * PyObj)) : M ReadResult :=
  do format <- match format with
               | None => guess_format_fh R into false
               | Some f => ret f
               end;
  read_as R format into is_own args kwargs.

(** [read(fp, format, into, mode, *args, **kwargs)]; no world when the
    call raised before it touched any file. *)
Definition read (R : Reg) (fp : FileArg) (format : option string)
           (into : option Cls) (mode : string) (args : list PyObj)
           (kwargs : list (string * PyObj))
  : option World * Outcome ReadResult :=
  match format, into with
  | None, None =>
      (None, Raises (Exception ValueError
                               "`format` and `into` cannot both be None." []))
  | _, _ =>
      let '(w, is_own) := _get_filehandle disk fp mode in
      let '(w', r) := read_fh R format into is_own args kwargs w in
      (Some w', r)
  end.

(** ** write *)

Definition write (R : Reg) (obj : PyObj) (format : option string)
           (into : option FileArg) (mode : string) (args : list PyObj)
           (kwargs : list (string * PyObj))
  : option World * Outcome unit :=
  match format with
  | None =>
      (None, Raises (Exception ValueError
                               "Must specify a `format` to write out as." []))
  | Some format =>
      match into with
      | None =>
          (None, Raises (Exception ValueError
                   "Must provide a filepath or filehandle for `into`" []))
      | Some into =>
          let '(w, own_fh) := _get_filehandle disk into mode in
          let '(w', r) :=
            open_file own_fh
              (do writer <- (fun w => (w, get_writer format
                                             [Some (dunder_class obj)] R));
               match writer with
               | None =>
                   do a <- str_fh;
                   raise (Exception FileFormatError
                                    "Cannot write %s into %s, no writer found."
                                    [Str format; a])
               | Some writer =>
                   run call_writer writer obj args kwargs;
                   ret tt
               end) w in
          (Some w', r)
      end
  end.

End Dispatch.

Arguments PyNone {GenState}.
Arguments Instance {GenState} cls state.
Arguments GeneratorObj {GenState} g.
Arguments dunder_class {GenState} obj.
Arguments call_identifier fmt test _ : assert.
Arguments call_reader {GenState} reader args kwargs _.
Arguments call_writer {GenState} writer obj args kwargs _.
Arguments py_next {GenState} gen_next original _.
Arguments guess_loop {GenState} R cls items possibles _.
Arguments decision_rule a matched : assert.
Arguments guess_format_fh {GenState} R cls own_fh _.
Arguments guess_format {GenState} disk R fp cls.
Arguments NotStarted {GenState}.
Arguments Suspended {GenState} original.
Arguments Finished {GenState}.
Arguments mkWrapperGen {GenState} _ _ _ _ _.
Arguments wg_reader {GenState} _.
Arguments wg_is_own {GenState} _.
Arguments wg_args {GenState} _.
Arguments wg_kwargs {GenState} _.
Arguments wg_frame {GenState} _.
Arguments at_frame {GenState} g f.
Arguments is_stop_iteration e : assert.
Arguments leaving_generator generator_stop e : assert.
Arguments wrapper_turn {GenState} gen_next generator_stop g original _.
Arguments wrapper_next {GenState} gen_next generator_stop g _.
Arguments pull {GenState} gen_next generator_stop n g w.
Arguments started {GenState} g.
Arguments in_try_block {GenState} g w.
Arguments Object {GenState} result.
Arguments Generator {GenState} wrapper.
Arguments read_as {GenState} R format into is_own args kwargs _.
Arguments read_fh {GenState} R format into is_own args kwargs _.
Arguments read {GenState} disk R fp format into mode args kwargs.
Arguments write {GenState} disk R obj format into mode args kwargs.

(** ** A sample registry, for evaluating the module on concrete calls *)

(** A class readers are registered for. *)
Definition SequenceCollection : Cls := Class "SequenceCollection".

(** What the paths of the examples hold. *)
Definition demo_disk (p : string) : string :=
  if String.eqb p "broken.fna" then "ACGT" else ">seq1 ACGT".

(** [next] on the generators of the sample readers: the state is the number
    of records still to come, each record read moves the offset. *)
Definition records_next (left : nat) (f : Stream)
  : Stream * (nat * Outcome (PyObj nat)) :=
  match left with
  | 0 => (f, (0, Raises (Exception StopIteration EmptyString [])))
  | S n =>
      (seek (S (position f)) f,
       (n, Returns (Instance (Class "BiologicalSequence") [n])))
  end.

(** [fasta_identifier(fh)] reads the first character. *)
Definition fasta_identifier : Identifier :=
  fun f => (seek 1 f, String.prefix ">" (contents f)).

(** [fasta_to_generator(fh)], a generator function. *)
Definition fasta_to_generator : Callable nat :=
  fun f args kwargs => (f, Returns (GeneratorObj 2)).

(** [fasta_to_collection(fh)] raises on a file that does not start with a
    header. *)
Definition fasta_to_collection : Callable nat :=
  fun f args kwargs =>
    if String.prefix ">" (contents f) then
      (seek (String.length (contents f)) f,
       Returns (Instance SequenceCollection [1]))
    else
      (seek 1 f, Raises (Exception ValueError "Found a line without a header." [])).

(** [qseq_to_generator(fh, phred_offset)]: one more positional argument is
    required, so a call without it raises [TypeError]. *)
Definition qseq_to_generator : Callable nat :=
  fun f args kwargs =>
    match args with
    | [_] => (f, Returns (GeneratorObj 1))
    | _ =>
        (f, Raises (Exception TypeError
                              "qseq_to_generator() takes exactly 2 arguments (%d given)"
                              [Int (S (length args))]))
    end.

(** The registry after four registrations. *)
Definition demo_registry : Reg nat :=
  let R := (register_identifier "fasta" fasta_identifier empty_registry).1 in
  let R := (decorate (register_reader "fasta" [Some SequenceCollection])
                     fasta_to_collection R).1 in
  let R := (decorate (register_reader "fasta" []) fasta_to_generator R).1 in
  (decorate (register_reader "qseq" []) qseq_to_generator R).1.

(** A call of [read] that raised an exception of class [cls] after it got
    hold of the file, and left the file open without a [close()]. *)
Definition leaks_on_failure (outcome : option World * Outcome (ReadResult nat))
           (cls : ExcClass) : Prop :=
  match outcome with
  | (Some w, Raises e) =>
      exc_class e = cls
      /\ closed (fh w) = false /\ count_events is_close (log w) = 0
  | _ => False
  end.

(** * More definitions: registry histories, consuming a generator *)

Section RegistryHistory.

Variables Ident Func : Type.

(** [evolves R R']: [R'] is what [R] has become after some more calls of the
    registration API, whether they returned or raised. *)
Inductive evolves (R : Registry Ident Func) : Registry Ident Func -> Prop :=
| evolves_refl : evolves R R
| evolves_identifier R' fmt identifier :
    evolves R R' -> evolves R (register_identifier fmt identifier R').1
| evolves_reader R' fmt cls func :
    evolves R R' -> evolves R (decorate (register_reader fmt cls) func R').1
| evolves_writer R' fmt cls func :
    evolves R R' -> evolves R (decorate (register_writer fmt cls) func R').1.

End RegistryHistory.

Arguments evolves {Ident Func} R _.

(** ** The trials of format identification *)

(** The trials in the words of the specification: every registered
    identifier that is to be tried is invoked against the stream, which is
    then put back to the start for the next one.  [items] are the registered
    (format, identifier) pairs, [tried] says which formats are to be tried,
    [f] is the stream at the start; an entry is the format, the stream its
    identifier was handed and the verdict the identifier gave on it. *)
Fixpoint trials (tried : string -> bool) (items : list (string * Identifier))
         (f : Stream) : list (string * Stream * bool) :=
  match items with
  | [] => []
  | (fmt, test) :: rest =>
      if tried fmt then
        (fmt, f, (test f).2) :: trials tried rest (seek 0 (test f).1)
      else trials tried rest f
  end.

(** The identifier calls of a log, each with the stream seen and the
    verdict. *)
Definition trial_events (l : list Event) : list (string * Stream * bool) :=
  flat_map (fun ev => match ev with
                      | EIdentify fmt seen verdict => [(fmt, seen, verdict)]
                      | _ => []
                      end) l.

(** The formats of the trials that ended with True. *)
Definition matches (ts : list (string * Stream * bool)) : list string :=
  flat_map (fun t => match t with (fmt, _, true) => [fmt] | _ => [] end) ts.

(** An entry of the trials is the answer of the identifier registered for
    its format, on the stream of the entry. *)
Definition answered_by (identifiers : gmap string Identifier)
           (t : string * Stream * bool) : Prop :=
  exists test, identifiers !! t.1.1 = Some test /\ (test t.1.2).2 = t.2.

(** ** Consuming a generator *)

Definition is_raise {A} (r : Outcome A) : bool :=
  match r with Raises _ => true | Returns _ => false end.

Section Consumption.

Variable GenState : Type.
Variable gen_next :
  GenState -> Stream -> Stream * (GenState * Outcome (PyObj GenState)).

(** [next(original)] on the file object alone. *)
Definition next_on (original : PyObj GenState) (f : Stream)
  : Stream * (PyObj GenState * Outcome (PyObj GenState)) :=
  let '(w, r) := py_next gen_next original {| fh := f; log := [] |} in
  (fh w, r).

(** What a consumer of the reader's own generator gets who asks up to [n]
    times and stops at the first request that raises. *)
Fixpoint drain (n : nat) (original : PyObj GenState) (f : Stream)
  : Stream * list (Outcome (PyObj GenState)) :=
  match n with
  | 0 => (f, [])
  | S n' =>
      match next_on original f with
      | (f1, (original', Returns x)) =>
          let '(f2, rs) := drain n' original' f1 in
          (f2, Returns x :: rs)
      | (f1, (_, Raises e)) => (f1, [Raises e])
      end
  end.

(** What the consumer of [wrapper_generator] sees of an outcome of the
    reader's generator: an element as it is, an exception as it leaves the
    body of the wrapper. *)
Definition through_wrapper (generator_stop : bool)
           (r : Outcome (PyObj GenState)) : Outcome (PyObj GenState) :=
  match r with
  | Returns x => Returns x
  | Raises e => Raises (leaving_generator generator_stop e)
  end.

(** [rs] made up to [n] outcomes with the [StopIteration] of a finished
    generator. *)
Definition then_stop (n : nat) (rs : list (Outcome (PyObj GenState)))
  : list (Outcome (PyObj GenState)) :=
  (rs ++ replicate (n - length rs)
                   (Raises (Exception StopIteration EmptyString [])))%list.

End Consumption.

Arguments next_on {GenState} gen_next original f.
Arguments drain {GenState} gen_next n original f.
Arguments through_wrapper {GenState} generator_stop r.
Arguments then_stop {GenState} n rs.

(** ** An identifier that takes any file, and a writer, for the sample
    registry *)

(** [text_identifier(fh)] reads three characters and says True. *)
Definition text_identifier : Identifier := fun f => (seek 3 f, true).

Definition demo_registry_with_text : Reg nat :=
  (register_identifier "text" text_identifier demo_registry).1.


(** [collection_to_fasta(obj, fh)] appends a record to the file. *)
Definition collection_to_fasta : Callable nat :=
  fun f args kwargs =>
    match args with
    | [Instance _ _] =>
        ({| contents := String.append (contents f) ">seq1 ACGT";
            position := position f + 10;
            closed := closed f |},
         Returns PyNone)
    | _ =>
        (f, Raises (Exception TypeError "collection_to_fasta: no collection" []))
    end.

Definition demo_registry_with_writer : Reg nat :=
  (decorate (register_writer "fasta" [Some SequenceCollection])
            collection_to_fasta demo_registry).1.

(** * What the module guarantees *)

(** ** The registry *)

Section RegistryFacts.

Context {Ident Func : Type}.
Implicit Types (R : Registry Ident Func) (fmt name : string) (cls : option Cls).

Lemma py_in_Some {K V} `{Countable K} (k : K) (d : gmap K V) v :
  d !! k = Some v -> py_in k d = true.
Proof. unfold py_in. by intros ->. Qed.

Lemma py_in_None {K V} `{Countable K} (k : K) (d : gmap K V) :
  d !! k = None -> py_in k d = false.
Proof. unfold py_in. by intros ->. Qed.

Lemma rw_decorator_taken name fmt cls func R g :
  slot_of R fmt cls !! name = Some g ->
  rw_decorator name fmt cls func R =
    (R, match getattr_name cls with
        | Raises e => Raises e
        | Returns cls_name =>
            Raises (Exception DuplicateRegistrationError
                              "'%s' already has a %s for %s."
                              [Str fmt; Str name; Str cls_name])
        end).
Proof.
  unfold slot_of, rw_decorator. intros Hg.
  destruct (_formats R !! fmt) as [d|] eqn:Hd; simpl in Hg; [|by rewrite lookup_empty in Hg].
  destruct (d !! cls) as [fc|] eqn:Hfc; simpl in Hg; [|by rewrite lookup_empty in Hg].
  rewrite (py_in_Some _ _ _ Hd). rewrite Hd. simpl.
  rewrite (py_in_Some _ _ _ Hfc). rewrite Hd. simpl. rewrite Hfc. simpl.
  rewrite (py_in_Some _ _ _ Hg). simpl.
  destruct R; simpl. by destruct (getattr_name cls).
Qed.

Lemma rw_decorator_fresh name fmt cls func R :
  slot_of R fmt cls !! name = None ->
  rw_decorator name fmt cls func R =
    ({| _formats :=
          <[fmt := <[cls := <[name := func]> (slot_of R fmt cls)]>
                     (default ∅ (_formats R !! fmt))]> (_formats R);
        _identifiers := _identifiers R |},
     Returns func).
Proof.
  unfold slot_of, rw_decorator. intros Hg.
  destruct (_formats R !! fmt) as [d|] eqn:Hd; simpl in *.
  - rewrite (py_in_Some _ _ _ Hd). rewrite Hd. simpl.
    destruct (d !! cls) as [fc|] eqn:Hfc; simpl in *.
    + rewrite (py_in_Some _ _ _ Hfc). rewrite Hd. simpl. rewrite Hfc. simpl.
      rewrite (py_in_None _ _ Hg). simpl. done.
    + rewrite (py_in_None _ _ Hfc). rewrite lookup_insert_eq. simpl.
      rewrite lookup_insert_eq. simpl.
      rewrite (py_in_None name ∅) by apply lookup_empty. simpl.
      by rewrite !insert_insert_eq.
  - rewrite (py_in_None _ _ Hd). rewrite lookup_insert_eq. simpl.
    rewrite (py_in_None cls ∅) by apply lookup_empty.
    rewrite lookup_insert_eq. simpl. rewrite lookup_insert_eq. simpl.
    rewrite (py_in_None name ∅) by apply lookup_empty. simpl.
    by rewrite !insert_insert_eq.
Qed.

Lemma _rw_getter_slot name fmt (args : list (option Cls)) R :
  Nat.ltb 1 (length args) = false ->
  _rw_getter name fmt args R =
    Returns (slot_of R fmt (match args with [c] => c | _ => None end) !! name).
Proof.
  unfold _rw_getter, slot_of. intros ->.
  destruct (_formats R !! fmt) as [d|]; simpl; [|by rewrite lookup_empty].
  destruct (d !! _) as [fc|]; simpl; [|by rewrite lookup_empty].
  by destruct (fc !! name).
Qed.

Lemma slot_of_after name fmt cls func R :
  slot_of {| _formats :=
               <[fmt := <[cls := <[name := func]> (slot_of R fmt cls)]>
                          (default ∅ (_formats R !! fmt))]> (_formats R);
             _identifiers := _identifiers R |} fmt cls
  = <[name := func]> (slot_of R fmt cls).
Proof.
  unfold slot_of at 1. simpl. rewrite lookup_insert_eq. simpl.
  by rewrite lookup_insert_eq.
Qed.

Lemma getter_then_decorator name R fmt (cls : list (option Cls)) (g : Func) :
  _rw_getter name fmt cls R = Returns None ->
  exists R', decorate (_rw_decorator name fmt cls) g R = (R', Returns g)
             /\ _rw_getter name fmt cls R' = Returns (Some g).
Proof.
  intros Hfree.
  destruct (Nat.ltb 1 (length cls)) eqn:Harity.
  { unfold _rw_getter in Hfree. by rewrite Harity in Hfree. }
  rewrite _rw_getter_slot in Hfree by done. injection Hfree as Hfree.
  unfold _rw_decorator. rewrite Harity. simpl.
  rewrite rw_decorator_fresh by done.
  eexists; split; [reflexivity|].
  rewrite _rw_getter_slot by done.
  by rewrite slot_of_after, lookup_insert_eq.
Qed.

(** C6. For a format that has no identifier yet, the decorator made by
    [register_identifier fmt] returns the function [g] it is applied to,
    and [get_identifier fmt] then returns that [g]; likewise for
    [register_reader]/[get_reader] and [register_writer]/[get_writer] on a
    (format, owner type) slot whose role is free. *)
Theorem registration_round_trip :
  (forall R fmt (g : Ident),
      get_identifier fmt R = None ->
      exists R', register_identifier fmt g R = (R', Returns g)
                 /\ get_identifier fmt R' = Some g)
  /\ (forall R fmt (cls : list (option Cls)) (g : Func),
        get_reader fmt cls R = Returns None ->
        exists R', decorate (register_reader fmt cls) g R = (R', Returns g)
                   /\ get_reader fmt cls R' = Returns (Some g))
  /\ (forall R fmt (cls : list (option Cls)) (g : Func),
        get_writer fmt cls R = Returns None ->
        exists R', decorate (register_writer fmt cls) g R = (R', Returns g)
                   /\ get_writer fmt cls R' = Returns (Some g)).
Proof.
  split; [|split].
  - intros R fmt g Hfree. unfold get_identifier, register_identifier in *.
    destruct (py_in fmt (_identifiers R)) eqn:Hin.
    + unfold py_in in Hin. rewrite Hfree in Hin. discriminate.
    + eexists; split; [reflexivity|]. simpl.
      rewrite (py_in_Some _ _ g) by apply lookup_insert_eq.
      apply lookup_insert_eq.
  - intros R fmt cls g. apply getter_then_decorator.
  - intros R fmt cls g. apply getter_then_decorator.
Qed.

Lemma decorator_failure_keeps_registry name fmt (cls : list (option Cls))
      (g : Func) R R' e :
  decorate (_rw_decorator name fmt cls) g R = (R', Raises e) -> R' = R.
Proof.
  unfold decorate, _rw_decorator.
  destruct (Nat.ltb 1 (length cls)); [congruence|].
  set (c := match cls with [c] => c | _ => None end).
  destruct (slot_of R fmt c !! name) as [g0|] eqn:Hslot.
  - rewrite (rw_decorator_taken _ _ _ _ _ _ Hslot). congruence.
  - rewrite (rw_decorator_fresh _ _ _ _ _ Hslot). congruence.
Qed.

(** C7. A registration that raises -- of an identifier, a reader or a
    writer, the duplicate-registration failure included -- leaves the
    registry exactly as it was before the call. *)
Theorem failed_registration_keeps_registry :
  (forall R fmt (g : Ident) R' e,
      register_identifier fmt g R = (R', Raises e) -> R' = R)
  /\ (forall R fmt (cls : list (option Cls)) (g : Func) R' e,
        decorate (register_reader fmt cls) g R = (R', Raises e) -> R' = R)
  /\ (forall R fmt (cls : list (option Cls)) (g : Func) R' e,
        decorate (register_writer fmt cls) g R = (R', Raises e) -> R' = R).
Proof.
  split; [|split].
  - intros R fmt g R' e. unfold register_identifier.
    destruct (py_in fmt (_identifiers R)); congruence.
  - intros R fmt cls g R' e. apply decorator_failure_keeps_registry.
  - intros R fmt cls g R' e. apply decorator_failure_keeps_registry.
Qed.

Lemma duplicate_for_class name fmt (c : Cls) (g g0 : Func) R :
  _rw_getter name fmt [Some c] R = Returns (Some g0) ->
  decorate (_rw_decorator name fmt [Some c]) g R =
    (R, Raises (Exception DuplicateRegistrationError
                          "'%s' already has a %s for %s."
                          [Str fmt; Str name; Str (dunder_name c)])).
Proof.
  rewrite _rw_getter_slot by done. intros [= Hslot].
  simpl. by rewrite (rw_decorator_taken _ _ _ _ _ _ Hslot).
Qed.

Lemma duplicate_for_no_type name fmt (cls : list (option Cls)) (g g0 : Func) R :
  cls = [] \/ cls = [None] ->
  _rw_getter name fmt cls R = Returns (Some g0) ->
  decorate (_rw_decorator name fmt cls) g R =
    (R, Raises (Exception AttributeError
                          "'NoneType' object has no attribute '__name__'" [])).
Proof.
  intros Hcls. rewrite _rw_getter_slot by (by destruct Hcls as [-> | ->]).
  intros [= Hslot]. unfold decorate, _rw_decorator.
  destruct Hcls as [-> | ->]; simpl in *;
    by rewrite (rw_decorator_taken _ _ _ _ _ _ Hslot).
Qed.

Lemma other_role_kept name name' fmt (cls : list (option Cls)) (g : Func) R :
  name <> name' ->
  _rw_getter name' fmt cls (decorate (_rw_decorator name fmt cls) g R).1
  = _rw_getter name' fmt cls R.
Proof.
  intros Hne. unfold decorate, _rw_decorator.
  destruct (Nat.ltb 1 (length cls)) eqn:Harity; [done|].
  set (c := match cls with [c] => c | _ => None end).
  destruct (slot_of R fmt c !! name) as [g0|] eqn:Hslot.
  - by rewrite (rw_decorator_taken _ _ _ _ _ _ Hslot).
  - rewrite (rw_decorator_fresh _ _ _ _ _ Hslot). simpl.
    rewrite !_rw_getter_slot by done. fold c.
    by rewrite slot_of_after, lookup_insert_ne.
Qed.

Lemma reader_and_writer_register_independently fmt (cls : list (option Cls))
      (r wr : Func) R :
  get_reader fmt cls R = Returns None ->
  get_writer fmt cls R = Returns None ->
  exists R1 R2,
    decorate (register_reader fmt cls) r R = (R1, Returns r)
    /\ decorate (register_writer fmt cls) wr R1 = (R2, Returns wr)
    /\ get_reader fmt cls R2 = Returns (Some r)
    /\ get_writer fmt cls R2 = Returns (Some wr).
Proof.
  intros Hr Hw.
  destruct (getter_then_decorator "reader" R fmt cls r Hr) as (R1 & Hreg1 & Hget1).
  assert (Hw1 : get_writer fmt cls R1 = Returns None).
  { pose proof (other_role_kept "reader" "writer" fmt cls r R) as Hkept.
    rewrite Hreg1 in Hkept. simpl in Hkept. unfold get_writer.
    by rewrite Hkept. }
  destruct (getter_then_decorator "writer" R1 fmt cls wr Hw1) as (R2 & Hreg2 & Hget2).
  exists R1, R2. repeat split; try done.
  pose proof (other_role_kept "writer" "reader" fmt cls wr R1) as Hkept.
  rewrite Hreg2 in Hkept. simpl in Hkept. unfold get_reader.
  by rewrite Hkept.
Qed.

Lemma binds_a_role_insert name (g : Func) (fc : gmap string Func) :
  name = "reader" \/ name = "writer" ->
  <[name := g]> fc <> ∅ /\ binds_a_role (<[name := g]> fc).
Proof.
  intros Hname. split; [apply insert_non_empty|].
  unfold binds_a_role.
  destruct Hname as [-> | ->]; [left | right]; rewrite lookup_insert_eq; eauto.
Qed.

Lemma decorator_keeps_slots name fmt (cls : list (option Cls)) (g : Func) R :
  name = "reader" \/ name = "writer" ->
  slots_nonempty R ->
  slots_nonempty (decorate (_rw_decorator name fmt cls) g R).1.
Proof.
  intros Hname Hinv. unfold decorate, _rw_decorator.
  destruct (Nat.ltb 1 (length cls)); [done|].
  set (c := match cls with [c] => c | _ => None end).
  destruct (slot_of R fmt c !! name) as [g0|] eqn:Hslot.
  { by rewrite (rw_decorator_taken _ _ _ _ _ _ Hslot). }
  rewrite (rw_decorator_fresh _ _ _ _ _ Hslot). simpl.
  intros fmt' d' cls' fc'. simpl.
  destruct (decide (fmt = fmt')) as [<- | Hfmt].
  - rewrite lookup_insert_eq. intros [= <-].
    destruct (decide (c = cls')) as [<- | Hcls].
    + rewrite lookup_insert_eq. intros [= <-].
      by apply binds_a_role_insert.
    + rewrite lookup_insert_ne by done.
      destruct (_formats R !! fmt) as [d|] eqn:Hd; simpl.
      * by apply (Hinv fmt).
      * by rewrite lookup_empty.
  - rewrite lookup_insert_ne by done. apply Hinv.
Qed.

Lemma reachable_slots_nonempty R : reachable R -> slots_nonempty R.
Proof.
  induction 1 as [|R fmt g _ IH|R fmt cls g _ IH|R fmt cls g _ IH].
  - intros fmt d cls fc. simpl. by rewrite lookup_empty.
  - unfold register_identifier. by destruct (py_in fmt (_identifiers R)).
  - apply decorator_keeps_slots; auto.
  - apply decorator_keeps_slots; auto.
Qed.

Lemma has_reader_or_writer_slot R fmt cls :
  has_reader_or_writer R fmt cls = true <-> binds_a_role (slot_of R fmt cls).
Proof.
  unfold has_reader_or_writer, get_reader, get_writer, binds_a_role.
  rewrite !_rw_getter_slot by done.
  destruct (slot_of R fmt cls !! "reader"), (slot_of R fmt cls !! "writer");
    split; intros H; try done; eauto.
  destruct H as [[? [=]] | [? [=]]].
Qed.

Lemma not_registered_for_slot R fmt cls :
  not_registered_for R fmt cls = false <->
  exists format_dict format_class,
    _formats R !! fmt = Some format_dict /\ format_dict !! cls = Some format_class.
Proof.
  unfold not_registered_for, py_in.
  destruct (_formats R !! fmt) as [d|]; simpl.
  - destruct (d !! cls) as [fc|] eqn:Hfc; simpl.
    + split; [eauto|done].
    + split; [done|]. intros (? & ? & [= <-] & Hfc'). congruence.
  - split; [done|]. by intros (? & ? & ? & _).
Qed.

Lemma not_registered_for_iff R fmt cls :
  slots_nonempty R ->
  not_registered_for R fmt cls = false <-> has_reader_or_writer R fmt cls = true.
Proof.
  intros Hinv.
  rewrite not_registered_for_slot, has_reader_or_writer_slot.
  unfold slot_of. split.
  - intros (d & fc & Hd & Hfc). rewrite Hd. simpl. rewrite Hfc. simpl.
    by apply (Hinv _ _ _ _ Hd Hfc).
  - unfold binds_a_role.
    destruct (_formats R !! fmt) as [d|]; simpl.
    + destruct (d !! cls) as [fc|] eqn:Hfc; simpl; [eauto|].
      rewrite ?lookup_empty. by intros [[? [=]] | [? [=]]].
    + rewrite ?lookup_empty. by intros [[? [=]] | [? [=]]].
Qed.

(** C9. In every registry reachable from the empty one, each
    (format, owner type) slot of [_formats] has a non-empty role mapping
    that binds a reader or a writer; hence the owner type is a key under the
    format, as [guess_format] tests it, exactly when [get_reader] or
    [get_writer] finds a function for the pair. *)
Theorem reachable_slots_bind_a_role R :
  reachable R ->
  slots_nonempty R
  /\ forall fmt cls,
      not_registered_for R fmt cls = false <->
      ((exists g, get_reader fmt [cls] R = Returns (Some g))
       \/ (exists g, get_writer fmt [cls] R = Returns (Some g))).
Proof.
  intros Hreach. pose proof (reachable_slots_nonempty R Hreach) as Hinv.
  split; [done|]. intros fmt cls.
  rewrite not_registered_for_slot.
  unfold get_reader, get_writer. rewrite !_rw_getter_slot by done.
  unfold slot_of. split.
  - intros (d & fc & Hd & Hfc). rewrite Hd. simpl. rewrite Hfc. simpl.
    destruct (Hinv _ _ _ _ Hd Hfc) as [_ [[g Hg] | [g Hg]]];
      [left | right]; exists g; by rewrite Hg.
  - destruct (_formats R !! fmt) as [d|]; simpl.
    + destruct (d !! cls) as [fc|] eqn:Hfc; simpl; [eauto|].
      rewrite ?lookup_empty. by intros [[? [=]] | [? [=]]].
    + rewrite ?lookup_empty. by intros [[? [=]] | [? [=]]].
Qed.

End RegistryFacts.

(** ** Reading the log *)

Section LogFacts.

Lemma count_events_app p (l1 l2 : list Event) :
  count_events p (l1 ++ l2) = count_events p l1 + count_events p l2.
Proof. unfold count_events. by rewrite List.filter_app, length_app. Qed.

Lemma positives_app (l1 l2 : list Event) :
  positives (l1 ++ l2) = (positives l1 ++ positives l2)%list.
Proof. apply flat_map_app. Qed.

Lemma identified_app (l1 l2 : list Event) :
  identified (l1 ++ l2) = (identified l1 ++ identified l2)%list.
Proof. apply flat_map_app. Qed.

Lemma identified_from_start_app (l1 l2 : list Event) :
  identified_from_start l1 -> identified_from_start l2 ->
  identified_from_start (l1 ++ l2).
Proof. unfold identified_from_start. rewrite Forall_app. auto. Qed.

Lemma trial_events_app (l1 l2 : list Event) :
  trial_events (l1 ++ l2) = (trial_events l1 ++ trial_events l2)%list.
Proof. apply flat_map_app. Qed.

Lemma positives_trial_events (l : list Event) :
  positives l = matches (trial_events l).
Proof.
  induction l as [|ev l IH]; [done|].
  change (ev :: l) with ([ev] ++ l)%list.
  rewrite positives_app, trial_events_app. unfold matches in *.
  rewrite flat_map_app, <- IH.
  destruct ev as [| | |fmt seen [|]| | |]; done.
Qed.

Lemma identified_trial_events (l : list Event) :
  identified l = (trial_events l).*1.*1.
Proof.
  induction l as [|ev l IH]; [done|].
  change (ev :: l) with ([ev] ++ l)%list.
  rewrite identified_app, trial_events_app, !fmap_app, <- IH.
  by destruct ev.
Qed.

Lemma trials_ext (tried tried' : string -> bool) items :
  (forall fmt, tried fmt = tried' fmt) ->
  forall f, trials tried items f = trials tried' items f.
Proof.
  intros Hext. induction items as [|[fmt test] rest IH]; intros f; simpl;
    [done|].
  rewrite <- Hext. destruct (tried fmt); by rewrite ?IH.
Qed.

Lemma trials_answered tried (identifiers : gmap string Identifier) items :
  (forall fmt test, (fmt, test) ∈ items -> identifiers !! fmt = Some test) ->
  forall f, Forall (answered_by identifiers) (trials tried items f).
Proof.
  induction items as [|[fmt test] rest IH]; intros Hitems f; simpl;
    [constructor|].
  assert (Hrest : forall fmt' test',
             (fmt', test') ∈ rest -> identifiers !! fmt' = Some test').
  { intros fmt' test' Hin. apply Hitems. by apply list_elem_of_further. }
  destruct (tried fmt); [|by apply IH].
  constructor; [|by apply IH].
  exists test. split; [|done]. apply Hitems, list_elem_of_here.
Qed.

End LogFacts.

(** Case analysis on one step of the dispatch code, with the events it
    appended counted. *)
Ltac step_cases :=
  repeat case_match; simplify_eq; simpl in *;
  rewrite ?count_events_app; unfold count_events; simpl.

(** ** Format identification, read and write *)

Section DispatchFacts.

Context {GenState : Type}.
Variable gen_next :
  GenState -> Stream -> Stream * (GenState * Outcome (PyObj GenState)).
Variable disk : string -> string.
Variable generator_stop : bool.
Implicit Types (R : Reg GenState) (w : World) (cls : option Cls).

Lemma guess_loop_run R cls items :
  forall possibles w,
    position (fh w) = 0 ->
    exists w' evs,
      guess_loop R cls items possibles w
      = (w', Returns (possibles ++ positives evs)%list)
      /\ log w' = (log w ++ evs)%list
      /\ position (fh w') = 0
      /\ identified evs = List.filter (fun fmt => negb (skipped R cls fmt)) items.*1
      /\ identified_from_start evs
      /\ count_events is_close evs = 0
      /\ reset_after_each evs.
Proof.
  induction items as [|[fmt test] rest IH]; intros possibles w Hpos.
  - exists w, []. simpl. rewrite !app_nil_r. repeat split; try done. constructor.
  - simpl. destruct (skipped R cls fmt) eqn:Hskip; simpl.
    { by apply IH. }
    unfold bind at 1, call_identifier.
    destruct (test (fh w)) as [f' verdict] eqn:Htest.
    unfold bind at 1, fh_seek. simpl.
    edestruct (IH (if verdict then (possibles ++ [fmt])%list else possibles)
                  {| fh := seek 0 f';
                     log := ((log w ++ [EIdentify fmt (fh w) verdict]) ++ [ESeek 0])%list |})
      as (w' & evs & Hrun & Hlog & Hpos' & Hids & Hfrom & Hcl & Hshape);
      [done|].
    exists w', ([EIdentify fmt (fh w) verdict; ESeek 0] ++ evs)%list.
    rewrite Hrun. simpl in Hlog. repeat split.
    + f_equal. f_equal. rewrite positives_app.
      destruct verdict; simpl; by rewrite <- ?app_assoc.
    + rewrite Hlog. by rewrite <- !app_assoc.
    + done.
    + rewrite identified_app. simpl. by rewrite Hids.
    + apply identified_from_start_app; [|done].
      repeat constructor. done.
    + by rewrite count_events_app, Hcl.
    + done.
Qed.

Lemma guess_format_fh_run R cls own_fh w :
  exists w' evs a,
    guess_format_fh R cls own_fh w = (w', decision_rule a (positives evs))
    /\ log w' = (log w ++ ESeek 0 :: evs
                   ++ (if own_fh then [EClose] else []))%list
    /\ identified evs
       = List.filter (fun fmt => negb (skipped R cls fmt)) (map_to_list (_identifiers R)).*1
    /\ identified_from_start evs
    /\ count_events is_close evs = 0
    /\ reset_after_each evs
    /\ (own_fh = true -> closed (fh w') = true).
Proof.
  unfold guess_format_fh, open_file, try_finally.
  unfold bind at 1, fh_seek.
  edestruct (guess_loop_run R cls (map_to_list (_identifiers R)) []
               {| fh := seek 0 (fh w); log := (log w ++ [ESeek 0])%list |})
    as (w1 & evs & Hrun & Hlog & Hpos & Hids & Hfrom & Hcl & Hshape); [done|].
  unfold bind at 1. rewrite Hrun. simpl in Hrun, Hlog |- *.
  exists (if own_fh then {| fh := close (fh w1); log := (log w1 ++ [EClose])%list |}
          else w1), evs, (StrOfFile (fh w1)).
  split; [|repeat split; try done].
  - unfold decision_rule, bind, str_fh, raise, ret.
    by destruct (positives evs) as [|f [|f' l]], own_fh.
  - destruct own_fh; simpl; rewrite Hlog, <- ?app_assoc; simpl; by rewrite ?app_nil_r.
  - by intros ->.
Qed.

Lemma guess_loop_trials R cls items :
  forall possibles w,
    trial_events (log (guess_loop R cls items possibles w).1)
    = (trial_events (log w)
       ++ trials (fun fmt => negb (skipped R cls fmt)) items (fh w))%list.
Proof.
  induction items as [|[fmt test] rest IH]; intros possibles w; simpl.
  - by rewrite app_nil_r.
  - destruct (skipped R cls fmt); simpl; [apply IH|].
    unfold bind at 1, call_identifier.
    destruct (test (fh w)) as [f' verdict]. unfold bind at 1, fh_seek. simpl.
    rewrite IH. simpl. rewrite !trial_events_app. simpl.
    by rewrite app_nil_r, <- app_assoc.
Qed.

Lemma guess_format_trial_events R fp cls :
  trial_events (log (guess_format disk R fp cls).1)
  = trials (fun fmt => negb (skipped R cls fmt))
           (map_to_list (_identifiers R))
           (seek 0 (fh (_get_filehandle disk fp "U").1)).
Proof.
  unfold guess_format.
  destruct (_get_filehandle disk fp "U") as [w0 own_fh] eqn:Hget. simpl.
  assert (Hw0 : trial_events (log w0) = []).
  { destruct fp; simpl in Hget; by injection Hget as <- _. }
  unfold guess_format_fh, open_file, try_finally.
  unfold bind at 1, fh_seek. unfold bind at 1.
  pose proof (guess_loop_trials R cls (map_to_list (_identifiers R)) []
                {| fh := seek 0 (fh w0); log := (log w0 ++ [ESeek 0])%list |})
    as Hloop.
  destruct (guess_loop R cls (map_to_list (_identifiers R)) [] _)
    as [w1 [possibles|e]]; simpl in Hloop.
  - rewrite trial_events_app, Hw0 in Hloop. simpl in Hloop.
    unfold bind, str_fh, raise, ret.
    destruct possibles as [|f [|f' l]], own_fh; simpl;
      rewrite ?trial_events_app, Hloop; simpl; by rewrite ?app_nil_r.
  - rewrite trial_events_app, Hw0 in Hloop. simpl in Hloop.
    destruct own_fh; simpl;
      rewrite ?trial_events_app, Hloop; simpl; by rewrite ?app_nil_r.
Qed.

Lemma registered_items_answer R :
  forall fmt test,
    (fmt, test) ∈ map_to_list (_identifiers R) ->
    _identifiers R !! fmt = Some test.
Proof. intros fmt test. apply elem_of_map_to_list. Qed.

Lemma guess_format_follows_rule R fp cls :
  exists a,
    (guess_format disk R fp cls).2
    = decision_rule a (positives (log (guess_format disk R fp cls).1)).
Proof.
  unfold guess_format.
  destruct (_get_filehandle disk fp "U") as [w own_fh] eqn:Hget.
  destruct (guess_format_fh_run R cls own_fh w)
    as (w' & evs & a & Hrun & Hlog & _).
  exists a. rewrite Hrun. simpl. rewrite Hlog. f_equal.
  rewrite positives_app. simpl. rewrite positives_app.
  assert (positives (log w) = []) as ->.
  { destruct fp; simpl in Hget; by injection Hget as <- _. }
  simpl. destruct own_fh; simpl; by rewrite ?app_nil_r.
Qed.

(** C4. For every file argument and every registry, [guess_format]
    decides on the formats whose registered identifier answered True.  The
    identifier calls it makes are the trials of the specification: each
    registered identifier that is not skipped is called, on the file put
    back to the start, and the verdict taken is that identifier's own answer
    on that file.  On the formats so matched: none is an identification
    failure, one is returned, two or more are an identification failure that
    names all of them. *)
Theorem guess_format_decision_rule R fp cls :
  trial_events (log (guess_format disk R fp cls).1)
  = trials (fun fmt => negb (skipped R cls fmt))
           (map_to_list (_identifiers R))
           (seek 0 (fh (_get_filehandle disk fp "U").1))
  /\ Forall (answered_by (_identifiers R))
            (trial_events (log (guess_format disk R fp cls).1))
  /\ positives (log (guess_format disk R fp cls).1)
     = matches (trials (fun fmt => negb (skipped R cls fmt))
                       (map_to_list (_identifiers R))
                       (seek 0 (fh (_get_filehandle disk fp "U").1)))
  /\ match positives (log (guess_format disk R fp cls).1) with
     | [] =>
         exists a,
           (guess_format disk R fp cls).2
           = Raises (Exception FormatIdentificationError
                               "Cannot guess the format for %s." [a])
     | [fmt] => (guess_format disk R fp cls).2 = Returns fmt
     | matched =>
         (guess_format disk R fp cls).2
         = Raises (Exception FormatIdentificationError
                             "File format is ambiguous, may be one of %s."
                             [StrOfList matched])
     end.
Proof.
  pose proof (guess_format_trial_events R fp cls) as Htrials.
  split; [done|]. split; [|split].
  - rewrite Htrials. apply trials_answered, registered_items_answer.
  - by rewrite positives_trial_events, Htrials.
  - destruct (guess_format_follows_rule R fp cls) as [a Hrule].
    rewrite Hrule. unfold decision_rule.
    destruct (positives (log (guess_format disk R fp cls).1)) as [|f [|f' l]];
      eauto.
Qed.

Lemma elem_of_bool_filter {A} (f : A -> bool) (l : list A) x :
  x ∈ List.filter f l <-> x ∈ l /\ f x = true.
Proof. rewrite !list_elem_of_In. apply filter_In. Qed.

Lemma NoDup_bool_filter {A} (f : A -> bool) (l : list A) :
  NoDup l -> NoDup (List.filter f l).
Proof.
  induction 1 as [|x l Hx _ IH]; simpl; [constructor|].
  destruct (f x); [|done]. constructor; [|done].
  rewrite elem_of_bool_filter. tauto.
Qed.

Lemma tried_applicable R cls fmt :
  reachable R -> negb (skipped R cls fmt) = applicable R cls fmt.
Proof.
  intros Hreach. unfold skipped, applicable. destruct cls as [c|]; [|done].
  simpl. apply reachable_slots_nonempty in Hreach.
  pose proof (not_registered_for_iff R fmt (Some c) Hreach) as Hiff.
  destruct (not_registered_for R fmt (Some c)),
           (has_reader_or_writer R fmt (Some c)); simpl; try done.
  - by destruct Hiff as [_ Hiff]; specialize (Hiff eq_refl).
  - by destruct Hiff as [Hiff _]; specialize (Hiff eq_refl).
Qed.

Lemma identifier_keys R fmt :
  fmt ∈ (map_to_list (_identifiers R)).*1 <-> is_Some (get_identifier fmt R).
Proof.
  unfold get_identifier, py_in. rewrite list_elem_of_fmap. split.
  - intros ([k v] & -> & Hin). apply elem_of_map_to_list in Hin.
    simpl. rewrite Hin. eauto.
  - destruct (_identifiers R !! fmt) as [v|] eqn:Hv; [|by intros [? [=]]].
    intros _. exists (fmt, v). split; [done|]. by apply elem_of_map_to_list.
Qed.

(** C5. In a reachable registry, [guess_format] calls the identifiers of
    exactly the registered formats that have a reader or a writer for the
    given owner type (all registered identifiers when none is given), each
    once, and every identifier it calls finds the file object at offset 0:
    the offset is reset once before the trials and again right after each
    identifier call, whatever the verdict.  What is called for a format is
    the identifier registered for it, on the file as its predecessors and
    the reset left it, and the verdict noted is its answer. *)
Theorem guess_format_trials R fp cls :
  reachable R ->
  identified (log (guess_format disk R fp cls).1)
  = List.filter (applicable R cls) (map_to_list (_identifiers R)).*1
  /\ (forall fmt,
        fmt ∈ identified (log (guess_format disk R fp cls).1) <->
        is_Some (get_identifier fmt R) /\ applicable R cls fmt = true)
  /\ NoDup (identified (log (guess_format disk R fp cls).1))
  /\ identified_from_start (log (guess_format disk R fp cls).1)
  /\ (exists calls,
        log (guess_format disk R fp cls).1
        = (match fp with Path p => [EOpen p "U"] | FileObj _ => [] end
           ++ ESeek 0 :: calls
           ++ match fp with Path _ => [EClose] | FileObj _ => [] end)%list
        /\ reset_after_each calls)
  /\ trial_events (log (guess_format disk R fp cls).1)
     = trials (applicable R cls) (map_to_list (_identifiers R))
              (seek 0 (fh (_get_filehandle disk fp "U").1))
  /\ Forall (answered_by (_identifiers R))
            (trial_events (log (guess_format disk R fp cls).1)).
Proof.
  intros Hreach.
  assert (Hevents :
            trial_events (log (guess_format disk R fp cls).1)
            = trials (applicable R cls) (map_to_list (_identifiers R))
                     (seek 0 (fh (_get_filehandle disk fp "U").1))).
  { rewrite guess_format_trial_events. apply trials_ext.
    intros fmt. by apply tried_applicable. }
  assert (Hanswers :
            Forall (answered_by (_identifiers R))
                   (trial_events (log (guess_format disk R fp cls).1))).
  { rewrite Hevents. apply trials_answered, registered_items_answer. }
  revert Hevents Hanswers. unfold guess_format.
  destruct (_get_filehandle disk fp "U") as [w own_fh] eqn:Hget.
  destruct (guess_format_fh_run R cls own_fh w)
    as (w' & evs & a & Hrun & Hlog & Hids & Hfrom & _ & Hshape & _).
  rewrite Hrun. simpl. intros Hevents Hanswers.
  assert (Hw : identified (log w) = [] /\ identified_from_start (log w)).
  { destruct fp; simpl in Hget; injection Hget as <- _; simpl;
      split; try done; repeat constructor. }
  destruct Hw as [Hw0 Hw1].
  assert (Hall : identified (log w')
                 = List.filter (applicable R cls) (map_to_list (_identifiers R)).*1).
  { rewrite Hlog, identified_app, Hw0. simpl. rewrite identified_app, Hids.
    destruct own_fh; simpl; rewrite app_nil_r;
      apply filter_ext; intros fmt; by apply tried_applicable. }
  split; [done|]. rewrite Hall. split; [|split; [|split; [|split]]].
  - intros fmt. by rewrite elem_of_bool_filter, identifier_keys.
  - apply NoDup_bool_filter, NoDup_fst_map_to_list.
  - rewrite Hlog. apply identified_from_start_app; [done|].
    constructor; [done|]. apply identified_from_start_app; [done|].
    destruct own_fh; repeat constructor.
  - exists evs. split; [|done]. rewrite Hlog.
    destruct fp; simpl in Hget; by injection Hget as <- <-.
  - done.
Qed.

Implicit Types (g : WrapperGen GenState).

Lemma wrapper_next_reader_calls g w :
  started (wrapper_next gen_next generator_stop g w).2.1 = true
  /\ count_events is_reader_call (log (wrapper_next gen_next generator_stop g w).1)
     = count_events is_reader_call (log w) + (if started g then 0 else 1).
Proof.
  unfold started, wrapper_next, wrapper_turn, call_reader, py_next, fh_close, ret.
  step_cases; split; try congruence; try lia.
Qed.

Lemma pull_reader_calls n :
  forall g w,
    count_events is_reader_call (log (pull gen_next generator_stop n g w).1.1)
    = count_events is_reader_call (log w)
      + (if started g then 0 else Nat.min 1 n).
Proof.
  induction n as [|n IH]; intros g w; simpl.
  - destruct (started g); lia.
  - destruct (wrapper_next_reader_calls g w) as [Hst Hcount].
    destruct (wrapper_next gen_next generator_stop g w) as [w1 [g1 r]]. simpl in *.
    specialize (IH g1 w1).
    destruct (pull gen_next generator_stop n g1 w1) as [[w2 g2] rs]. simpl in *.
    rewrite IH, Hcount, Hst. destruct (started g); lia.
Qed.

(** C10. A streaming [read] (no [into]) checks for the reader at once: with
    no reader for (format, no type) it raises the no-such-reader failure;
    with one it returns the generator without having called the reader,
    and after [n] requests for an element the reader has been called
    [min 1 n] times: never before the first request, once from then on. *)
Theorem streaming_read_defers_reader R fp fmt mode args kwargs :
  match get_reader fmt [None] R with
  | Returns (Some reader) =>
      exists w g,
        read disk R fp (Some fmt) None mode args kwargs
        = (Some w, Returns (Generator g))
        /\ wg_reader g = reader /\ wg_frame g = NotStarted
        /\ count_events is_reader_call (log w) = 0
        /\ forall n,
            count_events is_reader_call (log (pull gen_next generator_stop n g w).1.1)
            = Nat.min 1 n
  | Returns None =>
      exists w,
        read disk R fp (Some fmt) None mode args kwargs
        = (Some w,
           Raises (Exception FileFormatError
                             "Cannot read %s into %s, no reader found."
                             [Str fmt; Str "generator"]))
        /\ count_events is_reader_call (log w) = 0
  | Raises _ => False
  end.
Proof.
  unfold read.
  destruct (_get_filehandle disk fp mode) as [w is_own] eqn:Hget.
  assert (Hw : count_events is_reader_call (log w) = 0).
  { destruct fp; simpl in Hget; by injection Hget as <- _. }
  unfold read_fh, read_as, bind, ret, raise.
  destruct (get_reader fmt [None] R) as [[reader|]|e] eqn:Hreader.
  - eexists _, _. split; [reflexivity|]. simpl. repeat split; try done.
    intros n. by rewrite pull_reader_calls, Hw.
  - eexists. split; [reflexivity|]. done.
  - unfold get_reader, _rw_getter in Hreader. simpl in Hreader.
    repeat case_match; discriminate.
Qed.

Lemma wrapper_next_release g w :
  wg_is_own g = true ->
  wg_is_own (wrapper_next gen_next generator_stop g w).2.1 = true
  /\ match (wrapper_next gen_next generator_stop g w).2.2 with
     | Returns _ =>
         (exists original,
             wg_frame (wrapper_next gen_next generator_stop g w).2.1 = Suspended original)
         /\ count_events is_close (log (wrapper_next gen_next generator_stop g w).1)
            = count_events is_close (log w)
     | Raises _ =>
         wg_frame (wrapper_next gen_next generator_stop g w).2.1 = Finished
         /\ count_events is_close (log (wrapper_next gen_next generator_stop g w).1)
            = count_events is_close (log w)
              + (if in_try_block g w then 1 else 0)
     end.
Proof.
  intros Hown.
  unfold in_try_block, wrapper_next, wrapper_turn, call_reader, py_next,
    fh_close, ret.
  rewrite Hown.
  step_cases; repeat split; eauto; try congruence; try lia.
Qed.

Lemma pull_finished n :
  forall g w, wg_frame g = Finished -> (pull gen_next generator_stop n g w).1 = (w, g).
Proof.
  induction n as [|n IH]; intros g w Hfin; simpl; [done|].
  unfold wrapper_next at 1. rewrite Hfin.
  specialize (IH g w Hfin).
  destruct (pull gen_next generator_stop n g w) as [[w2 g2] rs]. by simpl in *.
Qed.

Lemma pull_closes_at_most_once n :
  forall g w,
    wg_is_own g = true ->
    count_events is_close (log (pull gen_next generator_stop n g w).1.1)
    <= count_events is_close (log w) + 1.
Proof.
  induction n as [|n IH]; intros g w Hown; simpl; [lia|].
  destruct (wrapper_next_release g w Hown) as [Hown' Hstep].
  destruct (wrapper_next gen_next generator_stop g w) as [w1 [g1 r]] eqn:Hnext. simpl in *.
  destruct r as [x|e].
  - destruct Hstep as [_ Hcount]. specialize (IH g1 w1 Hown').
    destruct (pull gen_next generator_stop n g1 w1) as [[w2 g2] rs]. simpl in *. lia.
  - destruct Hstep as [Hfin Hcount].
    pose proof (pull_finished n g1 w1 Hfin) as Hrest.
    destruct (pull gen_next generator_stop n g1 w1) as [[w2 g2] rs]. simpl in *.
    injection Hrest as -> ->. rewrite Hcount.
    destruct (in_try_block g w); lia.
Qed.

(** C8. [write] with a format and a path, when no writer is registered for
    (format, class of the object), raises the no-such-writer failure, and
    the file opened from the path has been closed when the failure leaves
    [write]. *)
Theorem write_without_writer_closes_path R obj fmt p mode args kwargs :
  get_writer fmt [Some (dunder_class obj)] R = Returns None ->
  exists w a,
    write disk R obj (Some fmt) (Some (Path p)) mode args kwargs
    = (Some w,
       Raises (Exception FileFormatError
                         "Cannot write %s into %s, no writer found."
                         [Str fmt; a]))
    /\ closed (fh w) = true
    /\ log w = [EOpen p mode; EClose].
Proof.
  intros Hwriter. unfold write. simpl.
  unfold open_file, try_finally, bind. rewrite Hwriter.
  unfold str_fh, raise, fh_close. simpl.
  eexists _, _. repeat split.
Qed.

Lemma read_as_failure_never_closes R fmt into is_own args kwargs w w' e :
  read_as R fmt into is_own args kwargs w = (w', Raises e) ->
  count_events is_close (log w') = count_events is_close (log w).
Proof.
  unfold read_as, bind, call_reader, fh_close, ret, raise. intros Hrun.
  step_cases; lia.
Qed.

Lemma read_failure_never_closes R fp format into mode args kwargs w e :
  read disk R fp format into mode args kwargs = (Some w, Raises e) ->
  count_events is_close (log w) = 0.
Proof.
  unfold read. intros Hread.
  assert (exists w0 is_own,
             count_events is_close (log w0) = 0
             /\ read_fh R format into is_own args kwargs w0 = (w, Raises e))
    as (w0 & is_own & Hw0 & Hrun).
  { destruct (_get_filehandle disk fp mode) as [w0 is_own] eqn:Hget.
    exists w0, is_own. split.
    - destruct fp; simpl in Hget; by injection Hget as <- _.
    - destruct format, into; simpl in Hread;
        destruct (read_fh R _ _ is_own args kwargs w0); congruence. }
  clear Hread. revert Hrun. unfold read_fh, bind.
  destruct format as [fmt|].
  - unfold ret. intros Hrun.
    by rewrite (read_as_failure_never_closes _ _ _ _ _ _ _ _ _ Hrun).
  - destruct (guess_format_fh_run R into false w0)
      as (w1 & evs & a & Hrun & Hlog & _ & _ & Hcl & _ & _).
    rewrite Hrun.
    assert (Hw1 : count_events is_close (log w1) = 0).
    { rewrite Hlog, count_events_app, Hw0. simpl. rewrite app_nil_r.
      apply Hcl. }
    destruct (decision_rule a (positives evs)) as [fmt|e'].
    + intros Hrun'.
      by rewrite (read_as_failure_never_closes _ _ _ _ _ _ _ _ _ Hrun').
    + by intros [= <- <-].
Qed.

End DispatchFacts.

(** ** The module at work on the sample registry *)

Lemma demo_registry_reachable : reachable demo_registry.
Proof. unfold demo_registry. cbv zeta. repeat constructor. Qed.

(** C1. What [read] does with a path when dispatch fails after the file was
    opened: on each of the three failure paths (no identifier claims the
    file; no reader for the pair; the reader called for [into] raises) the
    exception leaves [read] with the file still open and no [close()]
    performed, where the specification has the owned stream released before
    the failure propagates. *)
Theorem read_failure_leaks_owned_stream :
  leaks_on_failure
    (read demo_disk demo_registry (Path "broken.fna") None
          (Some SequenceCollection) "U" [] [])
    FormatIdentificationError
  /\ leaks_on_failure
       (read demo_disk demo_registry (Path "seqs.fna") (Some "qseq")
             (Some SequenceCollection) "U" [] [])
       FileFormatError
  /\ leaks_on_failure
       (read demo_disk demo_registry (Path "broken.fna") (Some "fasta")
             (Some SequenceCollection) "U" [] [])
       ValueError.
Proof. vm_compute. repeat split. Qed.

(** C2. A second reader for a pair whose owner type is the "no type" tag
    (here [register_reader "fasta"] twice, the tag omitted or given as
    [None]) is turned down with [AttributeError], not with
    [DuplicateRegistrationError]: the message of the latter needs
    [cls.__name__], and [None] has none.  The same holds for writers; the
    registry is left as it was. *)
Theorem duplicate_for_no_type_raises_AttributeError :
  get_reader "fasta" [] demo_registry = Returns (Some fasta_to_generator)
  /\ decorate (register_reader "fasta" []) qseq_to_generator demo_registry
     = (demo_registry,
        Raises (Exception AttributeError
                          "'NoneType' object has no attribute '__name__'" []))
  /\ decorate (register_reader "fasta" [None]) qseq_to_generator demo_registry
     = (demo_registry,
        Raises (Exception AttributeError
                          "'NoneType' object has no attribute '__name__'" []))
  /\ (let R := (decorate (register_writer "fasta" []) fasta_to_generator
                         demo_registry).1 in
      decorate (register_writer "fasta" []) qseq_to_generator R
      = (R, Raises (Exception AttributeError
                              "'NoneType' object has no attribute '__name__'" []))).
Proof. vm_compute. repeat split. Qed.

(** C3. A streaming [read] of a path whose reader raises when it is called
    (here a reader with a required extra argument, called without it): the
    first request for an element raises, and neither this request nor any
    later one closes the file, where the specification has the stream
    released once when pulling an element raises an error. *)
Theorem streaming_reader_call_failure_leaks :
  exists w g,
    read demo_disk demo_registry (Path "run1_qseq.txt") (Some "qseq") None
         "U" [] []
    = (Some w, Returns (Generator g))
    /\ wg_is_own g = true
    /\ forall generator_stop,
        (exists e, (pull records_next generator_stop 1 g w).2 = [Raises e]
                   /\ exc_class e = TypeError)
        /\ forall n,
            count_events is_close
              (log (pull records_next generator_stop (S n) g w).1.1) = 0
            /\ closed (fh (pull records_next generator_stop (S n) g w).1.1)
               = false
            /\ wg_frame (pull records_next generator_stop (S n) g w).1.2
               = Finished.
Proof.
  remember (read demo_disk demo_registry (Path "run1_qseq.txt") (Some "qseq")
                 None "U" [] []) as outcome eqn:Hread.
  vm_compute in Hread. subst outcome.
  eexists _, _. split; [reflexivity|]. split; [reflexivity|].
  intros generator_stop. split.
  - eexists. vm_compute. split; reflexivity.
  - intros n. cbn [pull].
    destruct (wrapper_next records_next generator_stop _ _)
      as [w1 [g1 r]] eqn:Hnext.
    vm_compute in Hnext. injection Hnext as <- <- <-.
    match goal with
    | |- context [pull records_next generator_stop n ?g ?w] =>
        pose proof (pull_finished records_next generator_stop n g w eq_refl)
          as Hrest;
        destruct (pull records_next generator_stop n g w) as [[w2 g2] rs]
    end.
    simpl in Hrest. injection Hrest as -> ->. repeat split.
Qed.

(** A streaming [read] whose reader returns its generator: the file is closed
    by the request that finds the generator exhausted, and only then. *)
Example streaming_read_closes_on_exhaustion :
  exists w g,
    read demo_disk demo_registry (Path "seqs.fna") (Some "fasta") None "U" [] []
    = (Some w, Returns (Generator g))
    /\ count_events is_close (log w) = 0
    /\ forall generator_stop,
        count_events is_close
          (log (pull records_next generator_stop 2 g w).1.1) = 0
        /\ count_events is_close
             (log (pull records_next generator_stop 3 g w).1.1) = 1
        /\ closed (fh (pull records_next generator_stop 3 g w).1.1) = true
        /\ count_events is_close
             (log (pull records_next generator_stop 7 g w).1.1) = 1.
Proof.
  remember (read demo_disk demo_registry (Path "seqs.fna") (Some "fasta")
                 None "U" [] []) as outcome eqn:Hread.
  vm_compute in Hread. subst outcome.
  eexists _, _. split; [reflexivity|]. split; [reflexivity|].
  intros [|]; vm_compute; repeat split.
Qed.

Lemma demo_registry_with_text_reachable : reachable demo_registry_with_text.
Proof. apply reach_identifier, demo_registry_reachable. Qed.

(** With the identifiers of "fasta" and "text" registered and no owner type
    given, a file both take is ambiguous, and a file only the second takes
    is guessed as "text": the verdicts are the identifiers' own. *)
Example guess_format_of_two_identifiers :
  (guess_format demo_disk demo_registry_with_text (Path "seqs.fna") None).2
  = Raises (Exception FormatIdentificationError
                      "File format is ambiguous, may be one of %s."
                      [StrOfList ["fasta"; "text"]])
  /\ (guess_format demo_disk demo_registry_with_text (Path "broken.fna")
                   None).2
     = Returns "text"
  /\ (guess_format demo_disk demo_registry_with_text (Path "seqs.fna")
                   (Some SequenceCollection)).2
     = Returns "fasta".
Proof. vm_compute. repeat split. Qed.

Lemma guess_format_trials_witness :
  reachable demo_registry_with_text
  /\ identified (log (guess_format demo_disk demo_registry_with_text
                                   (Path "broken.fna") None).1)
     = ["fasta"; "text"]
  /\ trial_events (log (guess_format demo_disk demo_registry_with_text
                                     (Path "broken.fna") None).1)
     = [("fasta", {| contents := "ACGT"; position := 0; closed := false |},
         false);
        ("text", {| contents := "ACGT"; position := 0; closed := false |},
         true)].
Proof.
  split; [exact demo_registry_with_text_reachable|].
  destruct (guess_format_trials demo_disk demo_registry_with_text
              (Path "broken.fna") None demo_registry_with_text_reachable)
    as (Hidentified & _ & _ & _ & _ & Hevents & _).
  split.
  - rewrite Hidentified. vm_compute. reflexivity.
  - rewrite Hevents. vm_compute. reflexivity.
Defined.

Lemma registration_round_trip_witness :
  get_identifier "qseq" demo_registry = None
  /\ exists R',
      register_identifier "qseq" fasta_identifier demo_registry
      = (R', Returns fasta_identifier)
      /\ get_identifier "qseq" R' = Some fasta_identifier.
Proof.
  split; [vm_compute; reflexivity|].
  apply (proj1 registration_round_trip). vm_compute. reflexivity.
Defined.

Lemma failed_registration_witness :
  (register_identifier "fasta" fasta_identifier demo_registry).2
  = Raises (Exception DuplicateRegistrationError
                      "'%s' already has an identifier." [Str "fasta"])
  /\ (register_identifier "fasta" fasta_identifier demo_registry).1
     = demo_registry.
Proof.
  split; [vm_compute; reflexivity|].
  apply (proj1 failed_registration_keeps_registry demo_registry "fasta"
               fasta_identifier _
               (Exception DuplicateRegistrationError
                          "'%s' already has an identifier." [Str "fasta"])).
  vm_compute. reflexivity.
Defined.

Lemma write_without_writer_witness :
  get_writer "fasta" [Some SequenceCollection] demo_registry = Returns None
  /\ exists w a,
      write demo_disk demo_registry (Instance SequenceCollection [1])
            (Some "fasta") (Some (Path "out.fna")) "w" [] []
      = (Some w,
         Raises (Exception FileFormatError
                           "Cannot write %s into %s, no writer found."
                           [Str "fasta"; a]))
      /\ closed (fh w) = true
      /\ log w = [EOpen "out.fna" "w"; EClose].
Proof.
  split; [vm_compute; reflexivity|].
  apply (write_without_writer_closes_path demo_disk demo_registry
           (Instance SequenceCollection [1]) "fasta" "out.fna" "w" [] []).
  vm_compute. reflexivity.
Defined.

Lemma reachable_slots_witness :
  reachable demo_registry /\ slots_nonempty demo_registry.
Proof.
  split; [exact demo_registry_reachable|].
  apply (reachable_slots_bind_a_role demo_registry demo_registry_reachable).
Defined.

(** * More of the module *)

(** ** The registry: listing, arity, duplicates, what a registration leaves
    alone *)

Section MoreRegistryFacts.

Context {Ident Func : Type}.
Implicit Types (R : Registry Ident Func) (fmt name : string) (cls : option Cls).

Lemma format_keys R fmt :
  fmt ∈ (map_to_list (_formats R)).*1 <-> is_Some (_formats R !! fmt).
Proof.
  rewrite list_elem_of_fmap. split.
  - intros ([k v] & -> & Hin). apply elem_of_map_to_list in Hin. simpl. eauto.
  - intros [v Hv]. exists (fmt, v). split; [done|]. by apply elem_of_map_to_list.
Qed.

Lemma _rw_list_formats_elem name cls R fmt :
  fmt ∈ _rw_list_formats name cls R <->
  exists g, _rw_getter name fmt [cls] R = Returns (Some g).
Proof.
  unfold _rw_list_formats. rewrite elem_of_bool_filter, format_keys.
  rewrite _rw_getter_slot by done. unfold slot_of, py_in.
  destruct (_formats R !! fmt) as [d|]; simpl.
  - destruct (d !! cls) as [fc|]; simpl.
    + destruct (fc !! name) as [g|]; split.
      * eauto.
      * eauto.
      * by intros [_ ?].
      * by intros [? [=]].
    + rewrite ?lookup_empty. split; [by intros [_ ?] | by intros [? [=]]].
  - rewrite ?lookup_empty. split; [by intros [[? [=]] _] | by intros [? [=]]].
Qed.

(** X1. [list_read_formats(cls)] lists exactly the formats for which
    [get_reader(fmt, cls)] finds a reader, each once, and
    [list_write_formats(cls)] those for which [get_writer(fmt, cls)] finds a
    writer, whatever the registry holds. *)
Theorem list_formats_exact R cls :
  (forall fmt, fmt ∈ list_read_formats cls R <->
               exists g, get_reader fmt [cls] R = Returns (Some g))
  /\ (forall fmt, fmt ∈ list_write_formats cls R <->
                  exists g, get_writer fmt [cls] R = Returns (Some g))
  /\ NoDup (list_read_formats cls R)
  /\ NoDup (list_write_formats cls R).
Proof.
  repeat split; try apply _rw_list_formats_elem;
    apply NoDup_bool_filter, NoDup_fst_map_to_list.
Qed.


(** X2. The owner type is optional and at most one: leaving it out is the
    same as passing [None], for the registration decorators and for the
    getters; with two or more the call raises [TypeError] with the role name
    and the number of arguments, registers nothing and looks nothing up; with
    at most one a getter never raises. *)
Theorem owner_type_arity name fmt (args : list (option Cls)) (g : Func) R :
  decorate (_rw_decorator name fmt []) g R
  = decorate (_rw_decorator name fmt [None]) g R
  /\ _rw_getter name fmt [] R = _rw_getter name fmt [None] R
  /\ (if Nat.ltb 1 (length args) then
        decorate (_rw_decorator name fmt args) g R
        = (R, Raises (Exception TypeError
                                "register_%s takes 1 or 2 arguments (%d given)"
                                [Str name; Int (length args)]))
        /\ _rw_getter name fmt args R
           = Raises (Exception TypeError
                               "get_%s takes 1 or 2 arguments (%d given)"
                               [Str name; Int (length args)])
      else exists found, _rw_getter name fmt args R = Returns found).
Proof.
  split; [done|]. split; [done|].
  destruct (Nat.ltb 1 (length args)) eqn:Harity.
  - unfold decorate, _rw_decorator, _rw_getter. by rewrite Harity.
  - rewrite _rw_getter_slot by done. eauto.
Qed.

Lemma rw_decorator_frame name fmt cls (g : Func) R name' fmt' cls' :
  (name', fmt', cls') <> (name, fmt, cls) ->
  slot_of (rw_decorator name fmt cls g R).1 fmt' cls' !! name'
  = slot_of R fmt' cls' !! name'.
Proof.
  intros Hother.
  destruct (slot_of R fmt cls !! name) as [g0|] eqn:Hslot.
  { by rewrite (rw_decorator_taken _ _ _ _ _ _ Hslot). }
  rewrite (rw_decorator_fresh _ _ _ _ _ Hslot). simpl.
  unfold slot_of at 1. simpl.
  destruct (decide (fmt = fmt')) as [<- | Hfmt].
  - rewrite lookup_insert_eq. simpl.
    destruct (decide (cls = cls')) as [<- | Hcls].
    + rewrite lookup_insert_eq. simpl.
      rewrite lookup_insert_ne; [done|]. congruence.
    + by rewrite lookup_insert_ne.
  - by rewrite lookup_insert_ne.
Qed.

Lemma rw_decorator_identifiers name fmt cls (g : Func) R :
  _identifiers (rw_decorator name fmt cls g R).1 = _identifiers R.
Proof.
  destruct (slot_of R fmt cls !! name) as [g0|] eqn:Hslot.
  - by rewrite (rw_decorator_taken _ _ _ _ _ _ Hslot).
  - by rewrite (rw_decorator_fresh _ _ _ _ _ Hslot).
Qed.

Lemma decorator_frame name fmt cls (g : Func) R name' fmt' cls' :
  (name', fmt', cls') <> (name, fmt, cls) ->
  _rw_getter name' fmt' [cls'] (decorate (_rw_decorator name fmt [cls]) g R).1
  = _rw_getter name' fmt' [cls'] R.
Proof.
  intros Hother. simpl.
  rewrite !_rw_getter_slot by done. by rewrite rw_decorator_frame.
Qed.

(** X3. A registration touches one binding only.  Registering a reader or a
    writer for (format, owner type) leaves every identifier and every other
    (role, format, owner type) lookup as it was; registering an identifier
    leaves the identifiers of the other formats and every reader and writer
    lookup as they were. *)
Theorem registration_leaves_other_bindings :
  (forall name fmt cls (g : Func) R,
      (forall fmt', get_identifier fmt'
                      (decorate (_rw_decorator name fmt [cls]) g R).1
                    = get_identifier fmt' R)
      /\ forall name' fmt' cls',
          (name', fmt', cls') <> (name, fmt, cls) ->
          _rw_getter name' fmt' [cls']
                     (decorate (_rw_decorator name fmt [cls]) g R).1
          = _rw_getter name' fmt' [cls'] R)
  /\ (forall fmt (g : Ident) R,
        (forall fmt', fmt' <> fmt ->
                      get_identifier fmt' (register_identifier fmt g R).1
                      = get_identifier fmt' R)
        /\ forall name' fmt' (args : list (option Cls)),
            _rw_getter name' fmt' args (register_identifier fmt g R).1
            = _rw_getter name' fmt' args R).
Proof.
  split.
  - intros name fmt cls g R. split.
    + intros fmt'. simpl. unfold get_identifier.
      by rewrite rw_decorator_identifiers.
    + intros name' fmt' cls'. apply decorator_frame.
  - intros fmt g R. unfold register_identifier.
    destruct (py_in fmt (_identifiers R)); simpl; [done|]. split; [|done].
    intros fmt' Hne. unfold get_identifier, py_in. simpl.
    by rewrite lookup_insert_ne.
Qed.

Lemma registration_keeps_bound name fmt (args : list (option Cls)) (g g0 : Func)
      R name' fmt' cls' :
  _rw_getter name' fmt' [cls'] R = Returns (Some g0) ->
  _rw_getter name' fmt' [cls'] (decorate (_rw_decorator name fmt args) g R).1
  = Returns (Some g0).
Proof.
  intros Hbound. unfold decorate, _rw_decorator.
  destruct (Nat.ltb 1 (length args)); [done|].
  set (c := match args with [c] => c | _ => None end).
  destruct (decide ((name', fmt', cls') = (name, fmt, c))) as [[= -> -> ->]|Hother].
  - rewrite _rw_getter_slot in Hbound by done. injection Hbound as Hslot.
    rewrite (rw_decorator_taken _ _ _ _ _ _ Hslot), _rw_getter_slot by done.
    simpl. by rewrite Hslot.
  - rewrite _rw_getter_slot in * by done.
    by rewrite rw_decorator_frame.
Qed.

Lemma register_identifier_keeps_bound fmt (g g0 : Ident) R fmt' :
  get_identifier fmt' R = Some g0 ->
  get_identifier fmt' (register_identifier fmt g R).1 = Some g0.
Proof.
  intros Hbound. unfold register_identifier.
  destruct (py_in fmt (_identifiers R)) eqn:Hin; simpl; [done|].
  unfold get_identifier, py_in in *.
  destruct (decide (fmt = fmt')) as [<- | Hne].
  - destruct (_identifiers R !! fmt); discriminate.
  - simpl. by rewrite lookup_insert_ne.
Qed.

(** X4. What is registered stays: once [get_identifier], [get_reader] or
    [get_writer] finds a function, it finds the same function after any
    number of further registration calls; no binding is removed or
    replaced. *)
Theorem bindings_are_permanent R R' :
  evolves R R' ->
  (forall fmt g, get_identifier fmt R = Some g -> get_identifier fmt R' = Some g)
  /\ (forall fmt cls g, get_reader fmt [cls] R = Returns (Some g) ->
                        get_reader fmt [cls] R' = Returns (Some g))
  /\ (forall fmt cls g, get_writer fmt [cls] R = Returns (Some g) ->
                        get_writer fmt [cls] R' = Returns (Some g)).
Proof.
  induction 1 as [|R' fmt0 g0 _ (IHi & IHr & IHw)
                   |R' fmt0 cls0 g0 _ (IHi & IHr & IHw)
                   |R' fmt0 cls0 g0 _ (IHi & IHr & IHw)]; [done|..].
  - repeat split.
    + intros fmt g Hg. by apply register_identifier_keeps_bound, IHi.
    + intros fmt cls g Hg. specialize (IHr _ _ _ Hg). revert IHr.
      unfold register_identifier. by destruct (py_in fmt0 (_identifiers R')).
    + intros fmt cls g Hg. specialize (IHw _ _ _ Hg). revert IHw.
      unfold register_identifier. by destruct (py_in fmt0 (_identifiers R')).
  - repeat split.
    + intros fmt g Hg. specialize (IHi _ _ Hg). revert IHi.
      unfold decorate, register_reader, _rw_decorator, get_identifier.
      destruct (Nat.ltb 1 (length cls0)); [done|].
      by rewrite rw_decorator_identifiers.
    + intros fmt cls g Hg. by apply registration_keeps_bound, IHr.
    + intros fmt cls g Hg. by apply registration_keeps_bound, IHw.
  - repeat split.
    + intros fmt g Hg. specialize (IHi _ _ Hg). revert IHi.
      unfold decorate, register_writer, _rw_decorator, get_identifier.
      destruct (Nat.ltb 1 (length cls0)); [done|].
      by rewrite rw_decorator_identifiers.
    + intros fmt cls g Hg. by apply registration_keeps_bound, IHr.
    + intros fmt cls g Hg. by apply registration_keeps_bound, IHw.
Qed.

(** X5. A second registration for a taken binding is reported as a
    duplicate whenever the owner type is a class: a second identifier for a
    format, and a second reader or writer for (format, class), raise
    [DuplicateRegistrationError] naming the format, and for readers and
    writers the role and the class name. *)
Theorem duplicate_registration_is_reported :
  (forall fmt (g g0 : Ident) R,
      get_identifier fmt R = Some g0 ->
      register_identifier fmt g R
      = (R, Raises (Exception DuplicateRegistrationError
                              "'%s' already has an identifier." [Str fmt])))
  /\ (forall fmt (c : Cls) (g g0 : Func) R,
        get_reader fmt [Some c] R = Returns (Some g0) ->
        decorate (register_reader fmt [Some c]) g R
        = (R, Raises (Exception DuplicateRegistrationError
                                "'%s' already has a %s for %s."
                                [Str fmt; Str "reader"; Str (dunder_name c)])))
  /\ (forall fmt (c : Cls) (g g0 : Func) R,
        get_writer fmt [Some c] R = Returns (Some g0) ->
        decorate (register_writer fmt [Some c]) g R
        = (R, Raises (Exception DuplicateRegistrationError
                                "'%s' already has a %s for %s."
                                [Str fmt; Str "writer"; Str (dunder_name c)]))).
Proof.
  split; [|split].
  - intros fmt g g0 R. unfold get_identifier, register_identifier.
    by destruct (py_in fmt (_identifiers R)).
  - intros fmt c g g0 R. apply duplicate_for_class.
  - intros fmt c g g0 R. apply duplicate_for_class.
Qed.


Lemma decorator_keeps_formats_tidy name fmt (args : list (option Cls)) (g : Func) R :
  name = "reader" \/ name = "writer" ->
  (forall fmt' d, _formats R !! fmt' = Some d -> d <> ∅)
  /\ (forall fmt' d cls' fc name' g',
        _formats R !! fmt' = Some d -> d !! cls' = Some fc ->
        fc !! name' = Some g' -> name' = "reader" \/ name' = "writer") ->
  (forall fmt' d,
      _formats (decorate (_rw_decorator name fmt args) g R).1 !! fmt' = Some d ->
      d <> ∅)
  /\ (forall fmt' d cls' fc name' g',
        _formats (decorate (_rw_decorator name fmt args) g R).1 !! fmt' = Some d ->
        d !! cls' = Some fc ->
        fc !! name' = Some g' -> name' = "reader" \/ name' = "writer").
Proof.
  intros Hname [Hne Hroles]. unfold decorate, _rw_decorator.
  destruct (Nat.ltb 1 (length args)); [done|].
  set (c := match args with [c] => c | _ => None end).
  destruct (slot_of R fmt c !! name) as [g0|] eqn:Hslot.
  { by rewrite (rw_decorator_taken _ _ _ _ _ _ Hslot). }
  rewrite (rw_decorator_fresh _ _ _ _ _ Hslot). simpl. split.
  - intros fmt' d. destruct (decide (fmt = fmt')) as [<- | Hfmt].
    + rewrite lookup_insert_eq. intros [= <-]. apply insert_non_empty.
    + rewrite lookup_insert_ne by done. apply Hne.
  - intros fmt' d cls' fc name' g'.
    destruct (decide (fmt = fmt')) as [<- | Hfmt].
    + rewrite lookup_insert_eq. intros [= <-].
      destruct (decide (c = cls')) as [<- | Hcls].
      * rewrite lookup_insert_eq. intros [= <-].
        destruct (decide (name = name')) as [<- | Hn]; [done|].
        rewrite lookup_insert_ne by done. unfold slot_of.
        destruct (_formats R !! fmt) as [d0|] eqn:Hd0; simpl;
          [|by rewrite lookup_empty].
        destruct (d0 !! c) as [fc0|] eqn:Hfc0; simpl;
          [|by rewrite lookup_empty].
        by apply (Hroles fmt d0 c fc0).
      * rewrite lookup_insert_ne by done.
        destruct (_formats R !! fmt) as [d0|] eqn:Hd0; simpl;
          [|by rewrite lookup_empty].
        by apply (Hroles fmt d0).
    + rewrite lookup_insert_ne by done. apply Hroles.
Qed.

Lemma reachable_formats_tidy R :
  reachable R ->
  (forall fmt d, _formats R !! fmt = Some d -> d <> ∅)
  /\ (forall fmt d cls fc name g,
        _formats R !! fmt = Some d -> d !! cls = Some fc ->
        fc !! name = Some g -> name = "reader" \/ name = "writer").
Proof.
  induction 1 as [|R fmt g _ IH|R fmt cls g _ IH|R fmt cls g _ IH].
  - split; intros *; simpl; by rewrite lookup_empty.
  - unfold register_identifier. by destruct (py_in fmt (_identifiers R)).
  - apply decorator_keeps_formats_tidy; auto.
  - apply decorator_keeps_formats_tidy; auto.
Qed.

(** X6. In every registry reachable from the empty one no empty dictionary
    is left behind and no role other than reader and writer is stored: a
    format is a key of [_formats] exactly when a reader or a writer is
    registered for it under some owner type, and every key of a role mapping
    is ["reader"] or ["writer"]. *)
Theorem reachable_formats_are_in_use R :
  reachable R ->
  (forall fmt,
      py_in fmt (_formats R) = true <->
      exists cls, has_reader_or_writer R fmt cls = true)
  /\ (forall fmt cls name g,
        slot_of R fmt cls !! name = Some g ->
        name = "reader" \/ name = "writer").
Proof.
  intros Hreach.
  destruct (reachable_formats_tidy R Hreach) as [Hne Hroles].
  pose proof (reachable_slots_nonempty R Hreach) as Hslots. split.
  - intros fmt. unfold py_in. split.
    + destruct (_formats R !! fmt) as [d|] eqn:Hd; [|done]. intros _.
      destruct (map_choose d (Hne _ _ Hd)) as (cls & fc & Hfc).
      exists cls. apply has_reader_or_writer_slot. unfold slot_of.
      rewrite Hd. simpl. rewrite Hfc. simpl.
      by apply (Hslots _ _ _ _ Hd Hfc).
    + intros [cls Hcls]. apply has_reader_or_writer_slot in Hcls.
      unfold slot_of, binds_a_role in Hcls.
      destruct (_formats R !! fmt) as [d|]; [done|].
      simpl in Hcls. rewrite ?lookup_empty in Hcls.
      by destruct Hcls as [[? [=]] | [? [=]]].
  - intros fmt cls name g. unfold slot_of.
    destruct (_formats R !! fmt) as [d|] eqn:Hd; simpl;
      [|by rewrite lookup_empty].
    destruct (d !! cls) as [fc|] eqn:Hfc; simpl; [|by rewrite lookup_empty].
    by apply (Hroles fmt d cls fc).
Qed.


Lemma decorator_success_binds name fmt cls (g : Func) R R' :
  decorate (_rw_decorator name fmt [cls]) g R = (R', Returns g) ->
  _rw_getter name fmt [cls] R' = Returns (Some g).
Proof.
  simpl. intros Hreg.
  destruct (slot_of R fmt cls !! name) as [g0|] eqn:Hslot.
  - rewrite (rw_decorator_taken _ _ _ _ _ _ Hslot) in Hreg.
    destruct (getattr_name cls); congruence.
  - rewrite (rw_decorator_fresh _ _ _ _ _ Hslot) in Hreg.
    injection Hreg as <-. rewrite _rw_getter_slot by done. simpl.
    by rewrite slot_of_after, lookup_insert_eq.
Qed.

(** X7. What is registered is listed: after a [register_reader] for
    (format, owner type) that went through, [list_read_formats] of that
    owner type contains the format, and the lists of write formats are what
    they were; likewise for [register_writer] with the roles exchanged. *)
Theorem registered_format_is_listed fmt cls (g : Func) R R' :
  (decorate (register_reader fmt [cls]) g R = (R', Returns g) ->
   fmt ∈ list_read_formats cls R'
   /\ forall fmt' cls', fmt' ∈ list_write_formats cls' R' <->
                        fmt' ∈ list_write_formats cls' R)
  /\ (decorate (register_writer fmt [cls]) g R = (R', Returns g) ->
      fmt ∈ list_write_formats cls R'
      /\ forall fmt' cls', fmt' ∈ list_read_formats cls' R' <->
                           fmt' ∈ list_read_formats cls' R).
Proof.
  split; intros Hreg.
  - split.
    + apply _rw_list_formats_elem. exists g.
      by apply (decorator_success_binds _ _ _ _ R).
    + intros fmt' cls'. unfold list_write_formats.
      rewrite !_rw_list_formats_elem.
      replace R' with (decorate (_rw_decorator "reader" fmt [cls]) g R).1
        by (unfold register_reader in Hreg; by rewrite Hreg).
      rewrite decorator_frame; [done|discriminate].
  - split.
    + apply _rw_list_formats_elem. exists g.
      by apply (decorator_success_binds _ _ _ _ R).
    + intros fmt' cls'. unfold list_read_formats.
      rewrite !_rw_list_formats_elem.
      replace R' with (decorate (_rw_decorator "writer" fmt [cls]) g R).1
        by (unfold register_writer in Hreg; by rewrite Hreg).
      rewrite decorator_frame; [done|discriminate].
Qed.

End MoreRegistryFacts.

(** ** Dispatch: who closes the file, what the reader and the writer get *)

Section MoreDispatchFacts.

Context {GenState : Type}.
Variable gen_next :
  GenState -> Stream -> Stream * (GenState * Outcome (PyObj GenState)).
Variable disk : string -> string.
Variable generator_stop : bool.
Implicit Types (R : Reg GenState) (w : World) (cls : option Cls).
Implicit Types (g : WrapperGen GenState).

(** X8. [read] into a class, the format given and a reader registered for
    the pair: the reader is called once, on the file as it was handed over
    and with the extra arguments as given, and when it returns [read] returns
    its result, having closed the file then, and only then, if it opened it
    from a path. *)
Theorem read_into_calls_reader_once R fp fmt c mode args kwargs reader f' v :
  get_reader fmt [Some c] R = Returns (Some reader) ->
  reader (fh (_get_filehandle disk fp mode).1) args kwargs = (f', Returns v) ->
  read disk R fp (Some fmt) (Some c) mode args kwargs
  = (Some {| fh := if (_get_filehandle disk fp mode).2 then close f' else f';
             log := (log (_get_filehandle disk fp mode).1
                     ++ ECallReader (fh (_get_filehandle disk fp mode).1)
                     :: (if (_get_filehandle disk fp mode).2
                         then [EClose] else []))%list |},
     Returns (Object v)).
Proof.
  intros Hreader Hcall. unfold read.
  destruct (_get_filehandle disk fp mode) as [w0 is_own]. simpl in *.
  unfold read_fh, read_as, bind, ret, call_reader, fh_close.
  rewrite Hreader, Hcall.
  destruct is_own; simpl; by rewrite <- ?app_assoc.
Qed.

(** X9. [write] with a writer registered for (format, class of the object):
    the writer is called once with the object first, then the extra
    arguments; the file is closed after the call if [write] opened it from a
    path, whether the writer returned or raised; an exception of the writer
    is the exception of [write], and what the writer returns is dropped. *)
Theorem write_calls_writer_then_closes R obj fmt fp mode args kwargs writer :
  get_writer fmt [Some (dunder_class obj)] R = Returns (Some writer) ->
  write disk R obj (Some fmt) (Some fp) mode args kwargs
  = (Some {| fh := if (_get_filehandle disk fp mode).2
                   then close (writer (fh (_get_filehandle disk fp mode).1)
                                      (obj :: args) kwargs).1
                   else (writer (fh (_get_filehandle disk fp mode).1)
                                (obj :: args) kwargs).1;
             log := (log (_get_filehandle disk fp mode).1
                     ++ ECallWriter (fh (_get_filehandle disk fp mode).1)
                     :: (if (_get_filehandle disk fp mode).2
                         then [EClose] else []))%list |},
     match (writer (fh (_get_filehandle disk fp mode).1)
                   (obj :: args) kwargs).2 with
     | Returns _ => Returns tt
     | Raises e => Raises e
     end).
Proof.
  intros Hwriter. unfold write.
  destruct (_get_filehandle disk fp mode) as [w0 own_fh]. simpl.
  unfold open_file, try_finally, bind, ret, call_writer, fh_close.
  rewrite Hwriter.
  destruct (writer (fh w0) (obj :: args) kwargs) as [f' [x|e]];
    destruct own_fh; simpl; by rewrite <- ?app_assoc.
Qed.

(** X10. The argument checks come before any file: [read] with neither a
    format nor a class, and [write] without a format or, the format given,
    without a destination, raise [ValueError] and open nothing; every other
    call gets hold of its file. *)
Theorem invalid_arguments_touch_no_file R fp obj format into dest mode args kwargs :
  match format, into with
  | None, None =>
      read disk R fp format into mode args kwargs
      = (None, Raises (Exception ValueError
                                 "`format` and `into` cannot both be None." []))
  | _, _ =>
      exists w, (read disk R fp format into mode args kwargs).1 = Some w
  end
  /\ match format, dest with
     | None, _ =>
         write disk R obj format dest mode args kwargs
         = (None, Raises (Exception ValueError
                                    "Must specify a `format` to write out as." []))
     | Some _, None =>
         write disk R obj format dest mode args kwargs
         = (None, Raises (Exception ValueError
                    "Must provide a filepath or filehandle for `into`" []))
     | Some _, Some _ =>
         exists w, (write disk R obj format dest mode args kwargs).1 = Some w
     end.
Proof.
  split.
  - unfold read. destruct (_get_filehandle disk fp mode) as [w0 is_own].
    destruct format, into; try done;
      destruct (read_fh R _ _ is_own args kwargs w0) as [w r]; by exists w.
  - unfold write. destruct format as [fmt|]; [|done].
    destruct dest as [d|]; [|done].
    destruct (_get_filehandle disk d mode) as [w0 own_fh].
    destruct (open_file own_fh _ w0) as [w r]. by exists w.
Qed.


Lemma trials_only (P : Event -> Prop) :
  (forall fmt seen verdict, P (EIdentify fmt seen verdict)) ->
  P (ESeek 0) ->
  forall evs, reset_after_each evs -> Forall P evs.
Proof.
  intros Hidentify Hseek.
  assert (Hboth : forall evs,
             (reset_after_each evs -> Forall P evs)
             /\ forall ev, reset_after_each (ev :: evs) -> Forall P (ev :: evs)).
  { induction evs as [|ev1 evs [IH1 IH2]].
    - split; [constructor|]. intros ev Hshape. by destruct ev.
    - split; [apply IH2|]. intros ev Hshape.
      destruct ev; try done. destruct ev1 as [|[|k]| | | | |]; try done.
      simpl in Hshape. repeat constructor; auto. }
  intros evs. apply Hboth.
Qed.

Lemma guess_format_fh_state R cls own_fh w :
  exists w1 evs r,
    guess_format_fh R cls own_fh w
    = (if own_fh
       then {| fh := close (fh w1); log := (log w1 ++ [EClose])%list |}
       else w1, r)
    /\ position (fh w1) = 0
    /\ log w1 = (log w ++ ESeek 0 :: evs)%list
    /\ reset_after_each evs
    /\ count_events is_close evs = 0.
Proof.
  unfold guess_format_fh, open_file, try_finally.
  unfold bind at 1, fh_seek.
  edestruct (guess_loop_run R cls (map_to_list (_identifiers R)) []
               {| fh := seek 0 (fh w); log := (log w ++ [ESeek 0])%list |})
    as (w1 & evs & Hrun & Hlog & Hpos & _ & _ & Hcl & Hshape); [done|].
  unfold bind at 1. rewrite Hrun. simpl in Hlog |- *.
  exists w1, evs, (decision_rule (StrOfFile (fh w1)) (positives evs)).
  split; [|repeat split; try done].
  - unfold decision_rule, bind, str_fh, raise, ret.
    by destruct (positives evs) as [|f [|f' l]], own_fh.
  - by rewrite Hlog, <- app_assoc.
Qed.

(** X11. How [guess_format] leaves the file, whatever it answers: a file it
    opened from a path has been closed, once, as the last thing done; a file
    object it was given has not been closed by it and is back at offset
    0. *)
Theorem guess_format_leaves_file R cls :
  (forall p,
      closed (fh (guess_format disk R (Path p) cls).1) = true
      /\ count_events is_close (log (guess_format disk R (Path p) cls).1) = 1
      /\ last (log (guess_format disk R (Path p) cls).1) = Some EClose)
  /\ (forall f,
        position (fh (guess_format disk R (FileObj f) cls).1) = 0
        /\ count_events is_close (log (guess_format disk R (FileObj f) cls).1)
           = 0).
Proof.
  split.
  - intros p. unfold guess_format. simpl.
    destruct (guess_format_fh_state R cls true
                {| fh := {| contents := disk p; position := 0; closed := false |};
                   log := [EOpen p "U"] |})
      as (w1 & evs & r & -> & _ & Hlog & _ & Hcl). simpl.
    rewrite last_snoc, count_events_app, Hlog. simpl in *.
    repeat split. unfold count_events in *. simpl. rewrite Hcl. done.
  - intros f. unfold guess_format. simpl.
    destruct (guess_format_fh_state R cls false {| fh := f; log := [] |})
      as (w1 & evs & r & -> & Hpos & Hlog & _ & Hcl). simpl.
    split; [done|]. rewrite Hlog. simpl. unfold count_events in *. simpl. done.
Qed.

(** X12. [read] with the format left out calls the reader, if it gets that
    far, on the file at offset 0: guessing the format has put it back to the
    start. *)
Theorem read_after_guess_starts_at_offset_0 R fp c mode args kwargs :
  match (read disk R fp None (Some c) mode args kwargs).1 with
  | Some w =>
      Forall (fun ev => match ev with
                        | ECallReader seen => position seen = 0
                        | _ => True
                        end) (log w)
  | None => False
  end.
Proof.
  unfold read. destruct (_get_filehandle disk fp mode) as [w0 is_own] eqn:Hget.
  assert (Hw0 : Forall (fun ev => match ev with
                          | ECallReader seen => position seen = 0
                          | _ => True
                          end) (log w0)).
  { destruct fp as [p|f]; simpl in Hget; injection Hget as <- _;
      repeat constructor. }
  unfold read_fh, bind at 1.
  destruct (guess_format_fh_state R (Some c) false w0)
    as (w1 & evs & r & -> & Hpos & Hlog & Hshape & _).
  assert (Hprefix : Forall (fun ev => match ev with
                              | ECallReader seen => position seen = 0
                              | _ => True
                              end) (log w1)).
  { rewrite Hlog. apply Forall_app. split.
    - done.
    - constructor; [done|]. by apply trials_only. }
  destruct r as [fmt|e]; simpl; [|done].
  unfold read_as, bind, ret, raise, call_reader, fh_close.
  destruct (get_reader fmt [Some c] R) as [[reader|]|e]; simpl; try done.
  destruct (reader (fh w1) args kwargs) as [f' [v|e]]; simpl.
  - destruct is_own; simpl; rewrite ?Forall_app; repeat split; try done;
      repeat constructor; done.
  - rewrite Forall_app. split; [done|]. repeat constructor. done.
Qed.


Lemma wrapper_next_borrowed g w :
  wg_is_own g = false ->
  wg_is_own (wrapper_next gen_next generator_stop g w).2.1 = false
  /\ count_events is_close (log (wrapper_next gen_next generator_stop g w).1)
     = count_events is_close (log w).
Proof.
  intros Hown.
  unfold wrapper_next, wrapper_turn, call_reader, py_next, fh_close, ret.
  rewrite Hown. step_cases; split; try done; lia.
Qed.

Lemma pull_borrowed n :
  forall g w,
    wg_is_own g = false ->
    count_events is_close (log (pull gen_next generator_stop n g w).1.1)
    = count_events is_close (log w).
Proof.
  induction n as [|n IH]; intros g w Hown; simpl; [done|].
  destruct (wrapper_next_borrowed g w Hown) as [Hown' Hcount].
  destruct (wrapper_next gen_next generator_stop g w) as [w1 [g1 r]]. simpl in *.
  specialize (IH g1 w1 Hown').
  destruct (pull gen_next generator_stop n g1 w1) as [[w2 g2] rs]. simpl in *. lia.
Qed.

Lemma read_as_borrowed R fmt into args kwargs w :
  count_events is_close (log (read_as R fmt into false args kwargs w).1)
  = count_events is_close (log w)
  /\ forall g, (read_as R fmt into false args kwargs w).2 = Returns (Generator g) ->
               wg_is_own g = false.
Proof.
  unfold read_as, bind, call_reader, fh_close, ret, raise.
  step_cases; split; try lia; by intros g [= <-].
Qed.

(** X13. A file object the caller passed in is never closed by [read] or
    [write], whatever they answer, nor by any request made to the generator
    a streaming [read] returned. *)
Theorem borrowed_file_is_never_closed R f obj format into mode args kwargs :
  match read disk R (FileObj f) format into mode args kwargs with
  | (Some w, r) =>
      count_events is_close (log w) = 0
      /\ match r with
         | Returns (Generator g) =>
             forall n, count_events is_close (log (pull gen_next generator_stop n g w).1.1) = 0
         | _ => True
         end
  | (None, _) => True
  end
  /\ match (write disk R obj format (Some (FileObj f)) mode args kwargs).1 with
     | Some w => count_events is_close (log w) = 0
     | None => True
     end.
Proof.
  split.
  - unfold read. simpl.
    assert (Hfh : forall w0,
               count_events is_close (log w0) = 0 ->
               count_events is_close
                 (log (read_fh R format into false args kwargs w0).1) = 0
               /\ forall g,
                   (read_fh R format into false args kwargs w0).2
                   = Returns (Generator g) -> wg_is_own g = false).
    { intros w0 Hw0. unfold read_fh, bind.
      destruct format as [fmt|].
      - unfold ret. destruct (read_as_borrowed R fmt into args kwargs w0)
          as [Hcount Hown]. rewrite Hcount. done.
      - destruct (guess_format_fh_state R into false w0)
          as (w1 & evs & r & -> & _ & Hlog & _ & Hcl).
        assert (Hw1 : count_events is_close (log w1) = 0).
        { rewrite Hlog, count_events_app, Hw0. unfold count_events in *.
          simpl. done. }
        destruct r as [fmt|e]; [|done].
        destruct (read_as_borrowed R fmt into args kwargs w1)
          as [Hcount Hown]. rewrite Hcount. done. }
    destruct (Hfh {| fh := f; log := [] |} eq_refl) as [Hcount Hown].
    destruct format, into; try done;
      destruct (read_fh R _ _ false args kwargs {| fh := f; log := [] |})
        as [w [[v|g]|e]]; simpl in *; split; try done;
      intros n; rewrite pull_borrowed; auto.
  - unfold write. destruct format as [fmt|]; [|done]. simpl.
    unfold open_file, try_finally, bind, ret, raise, str_fh, call_writer.
    step_cases; by simplify_eq.
Qed.


Lemma wrapper_next_closed g w :
  wg_is_own g = true ->
  in_try_block g w = true ->
  is_raise (wrapper_next gen_next generator_stop g w).2.2 = true ->
  closed (fh (wrapper_next gen_next generator_stop g w).1) = true.
Proof.
  intros Hown.
  unfold in_try_block, wrapper_next, wrapper_turn, call_reader, py_next,
    fh_close, ret.
  rewrite Hown. step_cases; done.
Qed.

Lemma pull_release_exact n :
  forall g w,
    wg_is_own g = true ->
    in_try_block g w = true ->
    count_events is_close (log (pull gen_next generator_stop n g w).1.1)
    = count_events is_close (log w)
      + (if existsb is_raise (pull gen_next generator_stop n g w).2 then 1 else 0)
    /\ (existsb is_raise (pull gen_next generator_stop n g w).2 = true ->
        closed (fh (pull gen_next generator_stop n g w).1.1) = true).
Proof.
  induction n as [|n IH]; intros g w Hown Htry; simpl.
  { split; [lia|done]. }
  destruct (wrapper_next_release gen_next generator_stop g w Hown) as [Hown' Hstep].
  pose proof (wrapper_next_closed g w Hown Htry) as Hclosed.
  destruct (wrapper_next gen_next generator_stop g w) as [w1 [g1 r]] eqn:Hnext. simpl in *.
  destruct r as [x|e].
  - destruct Hstep as [[original Hframe] Hcount].
    assert (Htry1 : in_try_block g1 w1 = true).
    { unfold in_try_block. by rewrite Hframe. }
    destruct (IH g1 w1 Hown' Htry1) as [IHcount IHclosed].
    destruct (pull gen_next generator_stop n g1 w1) as [[w2 g2] rs]. simpl in *.
    split; [lia|done].
  - destruct Hstep as [Hfin Hcount].
    pose proof (pull_finished gen_next generator_stop n g1 w1 Hfin) as Hrest.
    destruct (pull gen_next generator_stop n g1 w1) as [[w2 g2] rs]. simpl in *.
    injection Hrest as -> ->. rewrite Hcount, Htry. split; [lia|auto].
Qed.

(** X14. A streaming [read] of a path whose reader returns its generator:
    the file stays open as long as the requests hand out elements, it is
    closed by the first request that raises -- the end of the generator
    included -- and it is not closed a second time by any later request. *)
Theorem streaming_release_exactly_once R p fmt mode args kwargs reader f1 original :
  get_reader fmt [None] R = Returns (Some reader) ->
  reader {| contents := disk p; position := 0; closed := false |} args kwargs
  = (f1, Returns original) ->
  exists w g,
    read disk R (Path p) (Some fmt) None mode args kwargs
    = (Some w, Returns (Generator g))
    /\ forall n,
        count_events is_close (log (pull gen_next generator_stop n g w).1.1)
        = (if existsb is_raise (pull gen_next generator_stop n g w).2 then 1 else 0)
        /\ (existsb is_raise (pull gen_next generator_stop n g w).2 = true ->
            closed (fh (pull gen_next generator_stop n g w).1.1) = true).
Proof.
  intros Hreader Hcall. unfold read. simpl.
  unfold read_fh, read_as, bind, ret. rewrite Hreader.
  eexists _, _. split; [reflexivity|]. intros n.
  apply (pull_release_exact n); [done|].
  unfold in_try_block. simpl. by rewrite Hcall.
Qed.

Lemma py_next_next_on original w :
  py_next gen_next original w
  = ({| fh := (next_on gen_next original (fh w)).1;
        log := (log w ++ [ENext (fh w)])%list |},
     (next_on gen_next original (fh w)).2).
Proof.
  unfold next_on, py_next. simpl.
  destruct original as [| |gs]; simpl; try done.
  by destruct (gen_next gs (fh w)) as [f' [g' r]].
Qed.

Lemma pull_finished_outcomes n :
  forall g w,
    wg_frame g = Finished ->
    (pull gen_next generator_stop n g w).2
    = replicate n (Raises (Exception StopIteration EmptyString [])).
Proof.
  induction n as [|n IH]; intros g w Hfin; simpl; [done|].
  unfold wrapper_next at 1. rewrite Hfin.
  specialize (IH g w Hfin).
  destruct (pull gen_next generator_stop n g w) as [[w2 g2] rs]. simpl in *. by rewrite IH.
Qed.

Lemma pull_suspended_outcomes n :
  forall g w original,
    wg_frame g = Suspended original ->
    (pull gen_next generator_stop n g w).2
    = then_stop n (through_wrapper generator_stop
                     <$> (drain gen_next n original (fh w)).2).
Proof.
  induction n as [|n IH]; intros g w original Hframe; simpl; [done|].
  unfold wrapper_next at 1. rewrite Hframe. unfold wrapper_turn.
  rewrite py_next_next_on.
  destruct (next_on gen_next original (fh w)) as [f1 [original' [x|e]]]; simpl.
  - specialize (IH (at_frame g (Suspended original'))
                   {| fh := f1; log := (log w ++ [ENext (fh w)])%list |}
                   original' eq_refl).
    destruct (pull gen_next generator_stop n _ _) as [[w2 g2] rs]. simpl in *.
    destruct (drain gen_next n original' f1) as [f2 rs']. simpl in *.
    rewrite IH. unfold then_stop. simpl. done.
  - pose proof (pull_finished_outcomes n (at_frame g Finished)) as Hrest.
    destruct (wg_is_own g); simpl;
      match goal with
      | |- context [pull gen_next generator_stop n _ ?w1] =>
          specialize (Hrest w1 eq_refl)
      end;
      destruct (pull gen_next generator_stop n _ _) as [[w2 g2] rs];
      simpl in *; rewrite Hrest; unfold then_stop; simpl;
      by rewrite Nat.sub_0_r.
Qed.

(** X15. The generator a streaming [read] returns hands out what the
    reader's own generator hands out, in the same order: the outcomes of [n]
    requests are those of asking the reader's generator directly, up to and
    with the first one that raises, followed by [StopIteration] for every
    request made after that.  The exception of the request that raises is
    the reader's as it leaves the body of the wrapper: unchanged, except that
    under PEP 479 (Python 3.7 and later) the [StopIteration] of an exhausted
    reader comes out as [RuntimeError]. *)
Theorem streaming_read_hands_out_reader_elements R fp fmt mode args kwargs
        reader f1 original :
  get_reader fmt [None] R = Returns (Some reader) ->
  reader (fh (_get_filehandle disk fp mode).1) args kwargs
  = (f1, Returns original) ->
  exists w g,
    read disk R fp (Some fmt) None mode args kwargs
    = (Some w, Returns (Generator g))
    /\ forall n,
        (pull gen_next generator_stop n g w).2
        = then_stop n (through_wrapper generator_stop
                         <$> (drain gen_next n original f1).2).
Proof.
  intros Hreader Hcall. unfold read.
  destruct (_get_filehandle disk fp mode) as [w0 is_own]. simpl in *.
  unfold read_fh, read_as, bind, ret. rewrite Hreader.
  eexists _, _. split; [reflexivity|]. intros [|n]; [done|].
  cbn [pull]. unfold wrapper_next at 1.
  cbn [wg_frame wg_reader wg_args wg_kwargs].
  unfold call_reader. rewrite Hcall.
  change (wrapper_turn gen_next generator_stop ?g ?o ?w)
    with (wrapper_next gen_next generator_stop (at_frame g (Suspended o)) w).
  pose proof (pull_suspended_outcomes (S n)
                (at_frame (mkWrapperGen reader is_own args kwargs NotStarted)
                          (Suspended original))
                {| fh := f1; log := (log w0 ++ [ECallReader (fh w0)])%list |}
                original eq_refl) as Hsusp.
  cbn [pull] in Hsusp. simpl in Hsusp. simpl. exact Hsusp.
Qed.

Lemma positives_identified (evs : list Event) fmt :
  fmt ∈ positives evs -> fmt ∈ identified evs.
Proof.
  unfold positives, identified.
  rewrite !list_elem_of_In, !in_flat_map. intros (ev & Hin & Hev).
  destruct ev as [| | |fmt0 seen [|]| | |]; simpl in Hev; try done.
  exists (EIdentify fmt0 seen true). split; [done|]. simpl. tauto.
Qed.

(** X16. A format name [guess_format] returns is the name of a registered
    identifier that the restriction to the owner type did not leave out
    (none is left out when no owner type is given). *)
Theorem guess_format_answer_is_registered R fp cls fmt :
  (guess_format disk R fp cls).2 = Returns fmt ->
  is_Some (get_identifier fmt R) /\ skipped R cls fmt = false.
Proof.
  unfold guess_format.
  destruct (_get_filehandle disk fp "U") as [w0 own_fh].
  destruct (guess_format_fh_run R cls own_fh w0)
    as (w' & evs & a & -> & _ & Hids & _). simpl.
  unfold decision_rule.
  destruct (positives evs) as [|f [|f' l]] eqn:Hpos; try done.
  intros [= ->].
  assert (Hin : fmt ∈ positives evs) by (rewrite Hpos; apply list_elem_of_here).
  apply positives_identified in Hin.
  rewrite Hids, elem_of_bool_filter, identifier_keys in Hin.
  destruct Hin as [Hreg Hnot]. split; [done|].
  by destruct (skipped R cls fmt).
Qed.

End MoreDispatchFacts.

(** ** The further properties on the sample registry *)

Lemma registration_leaves_other_bindings_witness :
  ("reader", "fasta", Some SequenceCollection)
  <> ("writer", "fasta", Some SequenceCollection)
  /\ get_reader "fasta" [Some SequenceCollection] demo_registry_with_writer
     = get_reader "fasta" [Some SequenceCollection] demo_registry.
Proof.
  split; [discriminate|].
  apply (proj1 registration_leaves_other_bindings "writer" "fasta"
               (Some SequenceCollection) collection_to_fasta demo_registry).
  discriminate.
Defined.

Lemma bindings_are_permanent_witness :
  evolves (register_identifier "fasta" fasta_identifier empty_registry).1
          demo_registry
  /\ get_identifier "fasta" demo_registry = Some fasta_identifier.
Proof.
  assert (Hevolves :
            evolves (register_identifier "fasta" fasta_identifier
                                         (empty_registry : Reg nat)).1
                    demo_registry).
  { unfold demo_registry. cbv zeta.
    apply evolves_reader, evolves_reader, evolves_reader, evolves_refl. }
  split; [exact Hevolves|].
  apply (proj1 (bindings_are_permanent _ _ Hevolves)).
  vm_compute. reflexivity.
Defined.

Lemma duplicate_registration_witness :
  get_reader "fasta" [Some SequenceCollection] demo_registry
  = Returns (Some fasta_to_collection)
  /\ decorate (register_reader "fasta" [Some SequenceCollection])
              fasta_to_generator demo_registry
     = (demo_registry,
        Raises (Exception DuplicateRegistrationError
                          "'%s' already has a %s for %s."
                          [Str "fasta"; Str "reader"; Str "SequenceCollection"])).
Proof.
  assert (Hbound : get_reader "fasta" [Some SequenceCollection] demo_registry
                   = Returns (Some fasta_to_collection))
    by (vm_compute; reflexivity).
  split; [exact Hbound|].
  exact (proj1 (proj2 duplicate_registration_is_reported) "fasta"
               SequenceCollection fasta_to_generator fasta_to_collection
               demo_registry Hbound).
Defined.

Lemma reachable_formats_witness :
  reachable demo_registry
  /\ (py_in "fasta" (_formats demo_registry) = true <->
      exists cls, has_reader_or_writer demo_registry "fasta" cls = true).
Proof.
  split; [exact demo_registry_reachable|].
  apply (reachable_formats_are_in_use demo_registry demo_registry_reachable).
Defined.

Lemma read_into_witness :
  get_reader "fasta" [Some SequenceCollection] demo_registry
  = Returns (Some fasta_to_collection)
  /\ read demo_disk demo_registry (Path "seqs.fna") (Some "fasta")
          (Some SequenceCollection) "U" [] []
     = (Some {| fh := {| contents := ">seq1 ACGT"; position := 10;
                         closed := true |};
                log := [EOpen "seqs.fna" "U";
                        ECallReader {| contents := ">seq1 ACGT"; position := 0;
                                       closed := false |};
                        EClose] |},
        Returns (Object (Instance SequenceCollection [1]))).
Proof.
  assert (Hbound : get_reader "fasta" [Some SequenceCollection] demo_registry
                   = Returns (Some fasta_to_collection))
    by (vm_compute; reflexivity).
  split; [exact Hbound|].
  exact (read_into_calls_reader_once demo_disk demo_registry (Path "seqs.fna")
           "fasta" SequenceCollection "U" [] [] fasta_to_collection
           {| contents := ">seq1 ACGT"; position := 10; closed := false |}
           (Instance SequenceCollection [1]) Hbound eq_refl).
Defined.

Lemma write_with_writer_witness :
  get_writer "fasta" [Some SequenceCollection] demo_registry_with_writer
  = Returns (Some collection_to_fasta)
  /\ (write demo_disk demo_registry_with_writer
            (Instance SequenceCollection [1]) (Some "fasta")
            (Some (Path "out.fna")) "w" [] []).2
     = Returns tt.
Proof.
  assert (Hbound : get_writer "fasta" [Some SequenceCollection]
                              demo_registry_with_writer
                   = Returns (Some collection_to_fasta))
    by (vm_compute; reflexivity).
  split; [exact Hbound|].
  rewrite (write_calls_writer_then_closes demo_disk demo_registry_with_writer
             (Instance SequenceCollection [1]) "fasta" (Path "out.fna") "w"
             [] [] collection_to_fasta Hbound).
  reflexivity.
Defined.

Lemma streaming_release_witness :
  get_reader "fasta" [None] demo_registry = Returns (Some fasta_to_generator)
  /\ exists w g,
      read demo_disk demo_registry (Path "seqs.fna") (Some "fasta") None "U"
           [] []
      = (Some w, Returns (Generator g))
      /\ forall n,
          count_events is_close (log (pull records_next true n g w).1.1)
          = (if existsb is_raise (pull records_next true n g w).2
             then 1 else 0)
          /\ (existsb is_raise (pull records_next true n g w).2 = true ->
              closed (fh (pull records_next true n g w).1.1) = true).
Proof.
  assert (Hbound : get_reader "fasta" [None] demo_registry
                   = Returns (Some fasta_to_generator))
    by (vm_compute; reflexivity).
  split; [exact Hbound|].
  exact (streaming_release_exactly_once records_next demo_disk true
           demo_registry "seqs.fna" "fasta" "U" [] [] fasta_to_generator _ _
           Hbound eq_refl).
Defined.

Lemma streaming_elements_witness :
  get_reader "fasta" [None] demo_registry = Returns (Some fasta_to_generator)
  /\ exists w g,
      read demo_disk demo_registry (Path "seqs.fna") (Some "fasta") None "U"
           [] []
      = (Some w, Returns (Generator g))
      /\ (pull records_next true 4 g w).2
         = [Returns (Instance (Class "BiologicalSequence") [1]);
            Returns (Instance (Class "BiologicalSequence") [0]);
            Raises (Exception RuntimeError "generator raised StopIteration" []);
            Raises (Exception StopIteration EmptyString [])]
      /\ (pull records_next false 4 g w).2
         = [Returns (Instance (Class "BiologicalSequence") [1]);
            Returns (Instance (Class "BiologicalSequence") [0]);
            Raises (Exception StopIteration EmptyString []);
            Raises (Exception StopIteration EmptyString [])].
Proof.
  assert (Hbound : get_reader "fasta" [None] demo_registry
                   = Returns (Some fasta_to_generator))
    by (vm_compute; reflexivity).
  split; [exact Hbound|].
  destruct (streaming_read_hands_out_reader_elements records_next demo_disk
              true demo_registry (Path "seqs.fna") "fasta" "U" [] []
              fasta_to_generator _ _ Hbound eq_refl) as (w & g & Hread & Hnew).
  destruct (streaming_read_hands_out_reader_elements records_next demo_disk
              false demo_registry (Path "seqs.fna") "fasta" "U" [] []
              fasta_to_generator _ _ Hbound eq_refl) as (w' & g' & Hread' & Hold).
  rewrite Hread in Hread'. injection Hread' as <- <-.
  exists w, g. split; [exact Hread|].
  rewrite Hnew, Hold. vm_compute. split; reflexivity.
Defined.

Lemma registered_format_is_listed_witness :
  decorate (register_writer "fasta" [Some SequenceCollection])
           collection_to_fasta demo_registry
  = (demo_registry_with_writer, Returns collection_to_fasta)
  /\ "fasta" ∈ list_write_formats (Some SequenceCollection)
                                  demo_registry_with_writer.
Proof.
  assert (Hreg : decorate (register_writer "fasta" [Some SequenceCollection])
                          collection_to_fasta demo_registry
                 = (demo_registry_with_writer, Returns collection_to_fasta))
    by (vm_compute; reflexivity).
  split; [exact Hreg|].
  exact (proj1 (proj2 (registered_format_is_listed "fasta"
                         (Some SequenceCollection) collection_to_fasta
                         demo_registry demo_registry_with_writer) Hreg)).
Defined.

Lemma guess_format_answer_witness :
  (guess_format demo_disk demo_registry (Path "seqs.fna") None).2
  = Returns "fasta"
  /\ is_Some (get_identifier "fasta" demo_registry).
Proof.
  assert (Hguess : (guess_format demo_disk demo_registry (Path "seqs.fna")
                                 None).2 = Returns "fasta")
    by (vm_compute; reflexivity).
  split; [exact Hguess|].
  exact (proj1 (guess_format_answer_is_registered demo_disk demo_registry
                  (Path "seqs.fna") None "fasta" Hguess)).
Defined.
